(** * A shallow embedding of product-explorer's polling loops, retry logic,
      ffmpeg filter synthesis and formatting helpers.

    Python values are modelled as follows: [str] as [string], [int] as [Z]
    (or [nat] where the source only counts), lists as [list], dictionaries
    the code only reads through [.get] as records with [option] fields.
    Every remote call (HTTP, inbox, LLM, ffprobe) is an explicit input of
    the model: a function from the poll / attempt number to the answer.
    Wall-clock time is an explicit clock in milliseconds. *)

From Stdlib Require Import ZArith Lia List String Ascii Bool Arith.
From Stdlib Require Sorted.
From Stdlib Require QArith Qround Qpower Lqa.
Import ListNotations.
Open Scope string_scope.

(** ** Python string helpers *)

Definition substr_of (t s : string) : Prop := exists p q, s = p ++ t ++ q.

Definition digit_char (d : nat) : ascii := ascii_of_nat (48 + d).

(** Decimal rendering of a non-negative integer, most significant digit
    first (what [str(n)] / [f"{n}"] prints). *)
Fixpoint digits_aux (fuel n : nat) (acc : string) : string :=
  match fuel with
  | O => acc
  | S f =>
      let acc' := String (digit_char (n mod 10)) acc in
      if Nat.ltb n 10 then acc' else digits_aux f (n / 10) acc'
  end.

Definition str_of_nat (n : nat) : string := digits_aux (S n) n "".

(** [str(z)] for a Python int. *)
Definition str_of_Z (z : Z) : string :=
  if (z <? 0)%Z then "-" ++ str_of_nat (Z.to_nat (- z))
  else str_of_nat (Z.to_nat z).

Fixpoint repeat_char (c : ascii) (n : nat) : string :=
  match n with O => "" | S k => String c (repeat_char c k) end.

(** [f"{n:02d}"] for a non-negative int: zero-fill to width 2. *)
Definition fmt_02d (n : Z) : string :=
  let s := str_of_Z n in repeat_char "0"%char (2 - String.length s) ++ s.

(** ** src/video_composer.py *)
Module VideoComposer.

Section Overlay.
  (** Python numbers (ints and floats mixed, as the segment dictionaries
      hold them) are left abstract: their addition, their rendering inside
      an f-string, the expression [int(x * 1000)] and the literals the code
      uses. Every result below holds for any choice of these. *)
Variable num : Type.
Variable py_add : num -> num -> num.
Variable py_str : num -> string.
Variable int_ms : num -> Z.
Variable lit0 lit5 : num.

  (** A narration segment dictionary: the keys the composer reads. *)
Record segment := mk_segment {
    start_time : option num;
    duration : option num;
    video_file : option string
  }.

Definition get_start (s : segment) : num :=
    match start_time s with Some x => x | None => lit0 end.
Definition get_duration (s : segment) : num :=
    match duration s with Some x => x | None => lit5 end.

Definition base_filters (browser_has_audio : bool) : string :=
    "[0:v][1:v]concat=n=2:v=1[basev];" ++
    (if browser_has_audio then "[0:a][1:a]concat=n=2:v=0:a=1[basea];"
     else "[0:a]acopy[basea];").

  (** The three filters the loop body appends for segment [i]. *)
Definition video_filter (i : nat) (start : num) : string :=
    "[" ++ str_of_nat (i + 2) ++ ":v]scale=320:180,setpts=PTS+" ++ py_str start
      ++ "/TB[v" ++ str_of_nat i ++ "];".

Definition audio_filter (i : nat) (dur : num) (start_ms : Z) : string :=
    "[" ++ str_of_nat (i + 2) ++ ":a]atrim=duration=" ++ py_str dur
      ++ ",asetpts=PTS-STARTPTS,adelay=" ++ str_of_Z start_ms ++ "|"
      ++ str_of_Z start_ms ++ "[a" ++ str_of_nat i ++ "];".

Definition overlay_body (i : nat) (start stop : num) : string :=
    "[v" ++ str_of_nat i ++ "]overlay=x=W-w-20:y=20:enable='between(t,"
      ++ py_str start ++ "," ++ py_str stop ++ ")':eof_action=pass[tmp"
      ++ str_of_nat i ++ "];".

Definition overlay_filter (i : nat) (start stop : num) : string :=
    (if Nat.eqb i 0 then "[basev]" else "[tmp" ++ str_of_Z (Z.of_nat i - 1) ++ "]")
      ++ overlay_body i start stop.

Definition segment_filters (intro_duration : num) (i : nat) (s : segment) : string :=
    let start := py_add (get_start s) intro_duration in
    let dur := get_duration s in
    let stop := py_add start dur in
    let start_ms := int_ms start in
    video_filter i start ++ audio_filter i dur start_ms ++ overlay_filter i start stop.

  (** [for i, segment in enumerate(narration_segments)], from index [i]. *)
Fixpoint segments_filters (intro_duration : num) (i : nat) (segs : list segment) : string :=
    match segs with
    | [] => ""
    | s :: rest => segment_filters intro_duration i s ++ segments_filters intro_duration (S i) rest
    end.

Fixpoint audio_labels (i n : nat) : string :=
    match n with O => "" | S k => "[a" ++ str_of_nat i ++ "]" ++ audio_labels (S i) k end.

Definition _build_overlay_filter (narration_segments : list segment)
      (intro_duration : num) (browser_has_audio : bool) : string :=
    let n := List.length narration_segments in
    let last_idx := (Z.of_nat n - 1)%Z in
    base_filters browser_has_audio
      ++ segments_filters intro_duration 0 narration_segments
      ++ "[tmp" ++ str_of_Z last_idx ++ "]format=yuv420p[outv];"
      ++ "[basea]" ++ audio_labels 0 n ++ "amix=inputs=" ++ str_of_Z (1 + Z.of_nat n)
      ++ ":duration=longest[outa]".

  (** Observable actions of [_compose_with_ffmpeg] and [_simple_concatenate]:
      subprocess calls, the concat list file they write, and the filter
      string they build. *)
Inductive action :=
  | Ffmpeg (args : list string)
  | ProbeAudio (file : string)
  | ProbeDuration (file : string)
  | WriteConcatList (lines : list string)
  | BuildFilter (filter_complex : string).

Variable lit12 : num.                 (* the literal 12.0 *)
Variable absolute : string -> string. (* Path(..).absolute() *)

Definition temp_browser (output_dir : string) : string :=
    output_dir ++ "/temp_browser.mp4".

Definition convert_cmd (browser_recording mp4 : string) : list string :=
    ["ffmpeg"; "-y"; "-i"; browser_recording; "-c:v"; "libx264"; "-preset"; "fast";
     "-pix_fmt"; "yuv420p"; mp4].

  (** [_simple_concatenate]; [temp_exists] is [browser_mp4.exists()]. *)
Definition _simple_concatenate (temp_exists : bool) (output_dir intro_video browser_recording
      output_file : string) : list action :=
    let browser_mp4 := temp_browser output_dir in
    let concat_file := output_dir ++ "/concat_list.txt" in
    (if temp_exists then [] else [Ffmpeg (convert_cmd browser_recording browser_mp4)])
      ++ [WriteConcatList ["file '" ++ absolute intro_video ++ "'";
                           "file '" ++ absolute browser_mp4 ++ "'"];
          Ffmpeg ["ffmpeg"; "-y"; "-f"; "concat"; "-safe"; "0"; "-i"; concat_file;
                  "-c"; "copy"; output_file]].

  (** [if segment.get('video_file')]: the file, when the key is present
      and its value is true (a missing key, [None] and [''] are false). *)
Definition video_file_set (s : segment) : option string :=
    match video_file s with
    | Some f => if String.eqb f "" then None else Some f
    | None => None
    end.

  (** [segment['duration'] = actual_duration] for segments with a video. *)
Definition probe_segment (probe_duration : string -> num) (s : segment) : segment :=
    match video_file_set s with
    | Some f => mk_segment (start_time s) (Some (probe_duration f)) (video_file s)
    | None => s
    end.

Definition video_inputs (segs : list segment) : list string :=
    flat_map (fun s => match video_file_set s with Some f => ["-i"; f] | None => [] end) segs.

Definition probe_actions (segs : list segment) : list action :=
    flat_map (fun s => match video_file_set s with Some f => [ProbeDuration f] | None => [] end) segs.

  (** [_compose_with_ffmpeg]; the oracles answer the ffprobe calls, whether
      [temp_browser.mp4] exists beforehand and whether the overlay ffmpeg run
      exits with code 0. *)
Definition _compose_with_ffmpeg (has_audio : string -> bool)
      (probe_duration : string -> num) (temp_exists overlay_ok : bool)
      (output_dir intro_video browser_recording : string)
      (narration_segments : list segment) (output_file : string) : list action :=
    match narration_segments with
    | [] => _simple_concatenate temp_exists output_dir intro_video browser_recording output_file
    | _ =>
        let browser_mp4 := temp_browser output_dir in
        let intro_duration := lit12 in
        let browser_has_audio := has_audio browser_mp4 in
        let segs := map (probe_segment probe_duration) narration_segments in
        let filter_complex := _build_overlay_filter segs intro_duration browser_has_audio in
        [Ffmpeg (convert_cmd browser_recording browser_mp4); ProbeAudio browser_mp4]
          ++ probe_actions narration_segments
          ++ [BuildFilter filter_complex;
              Ffmpeg (["ffmpeg"; "-y"; "-i"; intro_video; "-i"; browser_mp4]
                        ++ video_inputs segs
                        ++ ["-filter_complex"; filter_complex; "-map"; "[outv]";
                            "-map"; "[outa]"; "-c:v"; "libx264"; "-c:a"; "aac";
                            "-preset"; "fast"; output_file])]
          ++ (if overlay_ok then []
              else _simple_concatenate false output_dir intro_video browser_recording output_file)
    end.

End Overlay.

(** *** Reading an ffmpeg filter graph back

    A filter graph is a [;]-separated list of chains; a chain starts with
    its input pads [[in]...] and ends with its output pads [...[out]].
    These functions recover the pad labels, to say which labels a graph
    consumes and which it defines. *)

Fixpoint split_semi (s : string) (cur : string) : list string :=
  match s with
  | "" => [cur]
  | String c r =>
      if Ascii.eqb c ";"%char then cur :: split_semi r ""
      else split_semi r (cur ++ String c "")
  end.

Fixpoint string_rev (s : string) : string :=
  match s with "" => "" | String c r => string_rev r ++ String c "" end.

(** Read a label up to the [close] character. *)
Fixpoint read_label (close : ascii) (s acc : string) : option (string * string) :=
  match s with
  | "" => None
  | String c r => if Ascii.eqb c close then Some (acc, r) else read_label close r (acc ++ String c "")
  end.

Fixpoint leading_labels (fuel : nat) (opn close : ascii) (s : string) : list string :=
  match fuel with
  | O => []
  | S f =>
      match s with
      | String c r =>
          if Ascii.eqb c opn then
            match read_label close r "" with
            | Some (l, rest) => l :: leading_labels f opn close rest
            | None => []
            end
          else []
      | "" => []
      end
  end.

Definition chain_inputs (ch : string) : list string :=
  leading_labels (String.length ch) "["%char "]"%char ch.

Definition chain_outputs (ch : string) : list string :=
  map string_rev (leading_labels (String.length ch) "]"%char "["%char (string_rev ch)).

Definition graph_inputs (g : string) : list string := flat_map chain_inputs (split_semi g "").
Definition graph_outputs (g : string) : list string := flat_map chain_outputs (split_semi g "").

End VideoComposer.

(** ** Task-status polling (three loops) *)
Module Poll.

(** [status in ['finished', 'stopped', 'failed']]; a missing status is [None]. *)
Definition terminal (status : option string) : bool :=
  match status with
  | Some s => (s =? "finished") || (s =? "stopped") || (s =? "failed")
  | None => false
  end.

(** How a polling loop stands: it returned a value at a time, it raised,
    or (fuel exhausted) it is still polling at a time. *)
Inductive outcome (A : Type) :=
| Returned (a : A) (now : Z)
| Raised (now : Z)
| Polling (now : Z).
Arguments Returned {A}. Arguments Raised {A}. Arguments Polling {A}.

(** One [requests.get] of a task: a decoded task dictionary, or an exception
    (connection error, [raise_for_status], JSON decoding). *)
Inductive http (dict : Type) :=
| HOk (d : dict)
| HErr.
Arguments HOk {dict}. Arguments HErr {dict}.

Section Loops.
  (** A task dictionary and its [.get('status')]. *)
Variable dict : Type.
Variable status : dict -> option string.
  (** Milliseconds the [k]-th request takes (the model only needs it to be
      non-negative where a claim depends on time). *)
Variable delay : nat -> Z.

  (** *** ProductExplorer.wait_for_task_completion (src/product_explorer.py)

      [task_id_at k] is the value of [self.task_id] when poll [k] reads it;
      the verification monitor may assign it while the loop sleeps (the read
      and the request have no [await] between them, so a poll is atomic).
      [get k id] answers [GET /tasks/id] at poll [k]. The loop also returns
      the list of task ids it polled. [last_task_id] only drives a print and
      is omitted. *)
Variable task_id_at : nat -> string.
Variable get : nat -> string -> http dict.
Variable check_interval : Z.

Fixpoint wait_for_task_completion (fuel k : nat) (now : Z) : list string * outcome dict :=
    match fuel with
    | O => ([], Polling now)
    | S f =>
        let now1 := (now + check_interval * 1000)%Z in
        let current_task_id := task_id_at k in
        match get k current_task_id with
        | HOk d =>
            if terminal (status d) then ([current_task_id], Returned d (now1 + delay k)%Z)
            else let '(tr, o) := wait_for_task_completion f (S k) (now1 + delay k)%Z in
                 (current_task_id :: tr, o)
        | HErr =>
            let '(tr, o) := wait_for_task_completion f (S k) (now1 + delay k + 5000)%Z in
            (current_task_id :: tr, o)
        end
    end.

  (** *** CourseExecutor._wait_for_task (src/course_executor.py)

      The task id is fixed; [resp k] answers poll [k]; an HTTP error raised by
      [raise_for_status] propagates. [steps d] is [task_data.get('steps', [])]:
      the steps not seen at the previous poll are appended to the timeline
      (each event is kept with its offset in milliseconds). *)
Variable resp : nat -> http dict.
Variable step : Type.
Variable steps : dict -> list step.

Fixpoint _wait_for_task (capture_timeline : bool) (fuel k : nat) (start now : Z)
      (last_step_count : nat) (timeline : list (step * Z)) : outcome (dict * list (step * Z)) :=
    match fuel with
    | O => Polling now
    | S f =>
        let now1 := (now + 2000 + delay k)%Z in
        match resp k with
        | HErr => Raised now1
        | HOk d =>
            let '(timeline', last') :=
              if capture_timeline then
                ((timeline ++ map (fun st => (st, (now1 - start)%Z)) (skipn last_step_count (steps d)))%list,
                 List.length (steps d))
              else (timeline, last_step_count) in
            if terminal (status d) then Returned (d, timeline') now1
            else _wait_for_task capture_timeline f (S k) start now1 last' timeline'
        end
    end.

  (** *** LiveVideoRecorder._monitor_task_completion (src/live_video_recorder.py)

      [mon_resp k] is the answer to poll [k]: a 200 response with its
      dictionary, another status code, or an exception (all but the first
      are ignored). The loop either prints "Task completed" with the status,
      or leaves the [while] by its condition and prints "Max recording time
      reached". *)
Inductive mon_response := M200 (d : dict) | MOther | MExc.
Inductive mon_report := TaskCompleted (st : option string) | MaxRecordingTime.

Fixpoint _monitor_task_completion (max_wait : Z) (fuel k : nat) (start now : Z)
      (mon_resp : nat -> mon_response) : outcome mon_report :=
    match fuel with
    | O => Polling now
    | S f =>
        if (now - start <? max_wait * 1000)%Z then
          let now1 := (now + 5000 + delay k)%Z in
          match mon_resp k with
          | M200 d =>
              if terminal (status d) then Returned (TaskCompleted (status d)) (now1 + 3000)%Z
              else _monitor_task_completion max_wait f (S k) start now1 mon_resp
          | MOther | MExc => _monitor_task_completion max_wait f (S k) start now1 mon_resp
          end
        else Returned MaxRecordingTime now
    end.
End Loops.
Arguments M200 {dict}. Arguments MOther {dict}. Arguments MExc {dict}.

End Poll.

(** ** Verification-email polling (two loops) *)
Module Inbox.
Import Poll.

(** One [inboxes.messages.list] call: the listed messages, or an exception. *)
Inductive listing (msg : Type) := LOk (ms : list msg) | LErr.
Arguments LOk {msg}. Arguments LErr {msg}.

(** [s.startswith('http')]. *)
Definition startswith (pre s : string) : bool := String.prefix pre s.

Section Loops.
Variable msg : Type.
Variable delay : nat -> Z.
Variable list_at : nat -> listing msg.

  (** *** ProductExplorer.get_verification_data (src/product_explorer.py)

      A verification result [{'type': ..., 'value': ...}]. When a message is
      listed the function always returns: fetching the body, the LLM call and
      the regular-expression search are all guarded, so [handle_message]
      stands for that branch ([messages.get], LLM URL extraction, 6- then
      4-digit code search, else the first 1000 body characters). *)
Record verification := mk_verification { v_type : string; v_value : string }.
Variable handle_message : nat -> msg -> verification.

Fixpoint verification_loop (timeout : Z) (fuel k : nat) (start now : Z)
      : outcome (option verification) :=
    match fuel with
    | O => Polling now
    | S f =>
        if (now - start <? timeout * 1000)%Z then
          let now1 := (now + delay k)%Z in
          match list_at k with
          | LErr => Raised now1
          | LOk (latest_item :: _) => Returned (Some (handle_message k latest_item)) now1
          | LOk [] => verification_loop timeout f (S k) start (now1 + 3000)%Z
          end
        else Returned None now
    end.

  (** [if not self.inbox: raise ValueError(...)], then the loop. *)
Definition get_verification_data (inbox_present : bool) (timeout : Z) (fuel : nat) (start : Z)
      : outcome (option verification) :=
    if inbox_present then verification_loop timeout fuel 0 start start else Raised start.

  (** *** CourseExecutor._monitor_verification_email (src/course_executor.py)

      [llm_at k] is the LLM answer at poll [k] ([None]: the call raised, which
      is caught). A URL is accepted when non-empty, not ['NONE'] and starting
      with ['http']; otherwise the loop sleeps and polls again. *)
Variable llm_at : nat -> option string.

Definition accept_url (u : string) : bool :=
    negb (u =? "") && negb (u =? "NONE") && startswith "http" u.

Fixpoint _monitor_verification_email (timeout : Z) (fuel k : nat) (start now : Z)
      : outcome (option string) :=
    match fuel with
    | O => Polling now
    | S f =>
        if (now - start <? timeout * 1000)%Z then
          let now1 := (now + delay k)%Z in
          match list_at k with
          | LErr => Raised now1
          | LOk [] => _monitor_verification_email timeout f (S k) start (now1 + 3000)%Z
          | LOk (_ :: _) =>
              match llm_at k with
              | Some u => if accept_url u then Returned (Some u) now1
                          else _monitor_verification_email timeout f (S k) start (now1 + 3000)%Z
              | None => _monitor_verification_email timeout f (S k) start (now1 + 3000)%Z
              end
          end
        else Returned None now
    end.
End Loops.

(** The default [timeout] of both functions. *)
Definition default_timeout : Z := 90.

End Inbox.

(** ** ProductExplorer.create_session (src/product_explorer.py) *)
Module CreateSession.

(** One [requests.post] + [raise_for_status] + [.json()]. *)
Inductive post_result (dict : Type) :=
| PostOk (d : dict)
| PostHttpErr (status_code : Z)   (* requests.exceptions.HTTPError *)
| PostOtherErr.                   (* any other exception *)
Arguments PostOk {dict}. Arguments PostHttpErr {dict}. Arguments PostOtherErr {dict}.

Inductive exn := RetriesExhausted | HttpError (status_code : Z) | OtherError.

Inductive result (dict : Type) := Created (d : dict) | Raise (e : exn).
Arguments Created {dict}. Arguments Raise {dict}.

(** What the function does observably: POST attempts and [time.sleep]s. *)
Inductive event := Post (attempt : nat) | Sleep (seconds : Z).

Section CS.
Variable dict : Type.
Variable post : nat -> post_result dict.

  (** [for attempt in range(retries)] over the remaining attempts. *)
Fixpoint attempts_loop (attempts : list nat) : list event * result dict :=
    match attempts with
    | [] => ([], Raise RetriesExhausted)
    | attempt :: rest =>
        match post attempt with
        | PostOk d => ([Post attempt], Created d)
        | PostHttpErr code =>
            if (code =? 429)%Z then
              let wait_time := ((Z.of_nat attempt + 1) * 15)%Z in
              let '(tr, r) := attempts_loop rest in (Post attempt :: Sleep wait_time :: tr, r)
            else ([Post attempt], Raise (HttpError code))
        | PostOtherErr => ([Post attempt], Raise OtherError)
        end
    end.

Definition create_session (retries : nat) : list event * result dict :=
    attempts_loop (seq 0 retries).
End CS.

Definition default_retries : nat := 3.

End CreateSession.

(** ** CourseExecutor.execute_all_courses (src/course_executor.py) *)
Module ExecuteAll.

(** What awaiting one course coroutine gives: its result dictionary, or the
    exception it raised. *)
Inductive course_outcome (dict : Type) := CDict (d : dict) | CExc (e : string).
Arguments CDict {dict}. Arguments CExc {dict}.

Section EA.
Variable course dict inbox : Type.
  (** [inboxes.create()] for course [i] ([None]: the call raised). *)
Variable create_inbox : nat -> option inbox.
Variable generate_password : nat -> string.
  (** The outcome of [execute_course(course, i, ..., credentials, inbox)]. *)
Variable execute_course : course -> nat -> inbox -> string -> course_outcome dict.

  (** The launch loop: one coroutine (a thunk) per course, in course order;
      creating an inbox raises out of the function. *)
Fixpoint prepare (i : nat) (demos : list course) : option (list (unit -> course_outcome dict)) :=
    match demos with
    | [] => Some []
    | c :: rest =>
        match create_inbox i with
        | None => None
        | Some ib =>
            let pw := generate_password i in
            match prepare (S i) rest with
            | None => None
            | Some ts => Some ((fun _ : unit => execute_course c i ib pw) :: ts)
            end
        end
    end.

  (** [asyncio.gather( *tasks, return_exceptions=True)]: every awaitable is
      run to its end and its result or exception is stored at its position. *)
Definition gather_return_exceptions (tasks : list (unit -> course_outcome dict))
      : list (course_outcome dict) :=
    map (fun t => t tt) tasks.

  (** [None]: the function raised (an inbox creation failed). The summary
      loop only prints and counts, so it is left out: [results] is returned
      unchanged apart from stringifying a non-string ['error']. *)
Definition execute_all_courses (demos : list course) : option (list (course_outcome dict)) :=
    match prepare 0 demos with
    | None => None
    | Some tasks => Some (gather_return_exceptions tasks)
    end.
End EA.

End ExecuteAll.

(** ** Passwords and the enhanced script (src/course_executor.py) *)
Module Password.

Definition ascii_letters : string :=
  "abcdefghijklmnopqrstuvwxyzABCDEFGHIJKLMNOPQRSTUVWXYZ".
Definition digits : string := "0123456789".
Definition specials : string := "!@#$%".

(** [chars = string.ascii_letters + string.digits + "!@#$%"]. *)
Definition chars : string := ascii_letters ++ digits ++ specials.

(** [random.choice(chars)] with [draw] the index the generator picks (in
    range for [random.choice]). *)
Definition choice (s : string) (draw : nat) : ascii :=
  match String.get draw s with Some c => c | None => "?"%char end.

(** [''.join(random.choice(chars) for _ in range(16))]; [draw j] is the
    index chosen by the [j]-th call. *)
Definition _generate_password (draw : nat -> nat) : string :=
  string_of_list_ascii (map (fun j => choice chars (draw j)) (seq 0 16)).

(** [any(c in text for c in '!@#$%')]. *)
Definition has_special (text : string) : bool :=
  existsb (fun c => existsb (Ascii.eqb c) (list_ascii_of_string specials))
          (list_ascii_of_string text).

(** A continuation byte [10xxxxxx] of UTF-8. *)
Definition is_continuation (c : ascii) : bool :=
  (128 <=? nat_of_ascii c)%nat && (nat_of_ascii c <? 192)%nat.

(** [len(text)]: the number of code points, i.e. of the bytes of the UTF-8
    encoding that start a character. *)
Definition py_len (text : string) : nat :=
  List.length (filter (fun c => negb (is_continuation c)) (list_ascii_of_string text)).

(** The masking in [_generate_enhanced_script] for an ['input'] action. *)
Definition display_text (text : string) : string :=
  if (12 <? py_len text)%nat && has_special text then "***" else text.

(** The markdown line written for an ['input'] action. *)
Definition input_action_line (idx : string) (text : string) : string :=
  "- ⌨️  **Type** into element #" ++ idx ++ ": `" ++ display_text text ++ "`" ++ String "010"%char "".

End Password.

(** ** CourseExecutor._format_time (src/course_executor.py) *)
Module FormatTime.
Import QArith Qround.

(** *** CPython's float arithmetic

    A Python float is an IEEE 754 binary64 number, modelled as the rational
    it denotes. An arithmetic operation computes the exact result and
    rounds it to the nearest binary64 value, ties to even ([fl]). The
    values rounded in [_format_time] are bounded by the magnitude of its
    argument, so they never overflow. *)

(** [2 ^ e] for any integer [e]. *)
Definition pow2 (e : Z) : Q := Qpower (inject_Z 2) e.

(** [floor(log2(n / d))] for [n > 0]: with [2^a <= n < 2^(a+1)] and
    [2^b <= d < 2^(b+1)] it is [a - b] or [a - b - 1]. *)
Definition floor_log2 (n : Z) (d : positive) : Z :=
  let l := (Z.log2 n - Z.log2 (Zpos d))%Z in
  if Qle_bool (pow2 l) (n # d) then l else (l - 1)%Z.

(** The integer nearest to [x], ties to even. *)
Definition round_half_even (x : Q) : Z :=
  let f := Qfloor x in
  match Qcompare (x - inject_Z f) (1 # 2) with
  | Lt => f
  | Gt => (f + 1)%Z
  | Eq => if Z.even f then f else (f + 1)%Z
  end.

(** Rounding of a positive rational to 53 significant bits: the exponent
    [e] of the last kept bit is [floor(log2 x) - 52], and at least the
    subnormal exponent [-1074]. *)
Definition round_pos (x : Q) : Q :=
  let e := Z.max (floor_log2 (Qnum x) (Qden x) - 52) (-1074) in
  inject_Z (round_half_even (x / pow2 e)) * pow2 e.

(** The binary64 value nearest to [x] (round to nearest, ties to even). *)
Definition fl (x : Q) : Q :=
  let y := Qred x in
  match Qnum y with
  | Z0 => 0
  | Zpos _ => round_pos y
  | Zneg _ => - round_pos (- y)
  end.

(** [int(x)]: truncation toward zero. *)
Definition py_int (x : Q) : Z := Z.quot (Qnum x) (Zpos (Qden x)).

(** C's [fmod(x, y)]: [x - n * y] with [n] the quotient [x / y] truncated
    toward zero; it is exact in binary64. *)
Definition fmod (x y : Q) : Q := x - y * inject_Z (py_int (x / y)).

Definition Qltb (a b : Q) : bool :=
  match Qcompare a b with Lt => true | _ => false end.

(** [vx // wx] for floats, [wx <> 0] (CPython's [_float_div_mod]):
<<
    mod = fmod(vx, wx);
    div = (vx - mod) / wx;
    if (mod) {
        if ((wx < 0) != (mod < 0)) { mod += wx; div -= 1.0; }
    }
    else { mod = copysign(0.0, wx); }
    if (div) {
        floordiv = floor(div);
        if (div - floordiv > 0.5) floordiv += 1.0;
    }
    else { floordiv = copysign(0.0, vx / wx); }
>>
    The sign of a zero is dropped: [int] maps both zeros to [0]. *)
Definition float_floor_div (vx wx : Q) : Q :=
  let mod' := fmod vx wx in
  let div := fl (fl (vx - mod') / wx) in
  let div := if Qeq_bool mod' 0 then div
             else if Bool.eqb (Qltb wx 0) (Qltb mod' 0) then div else fl (div - 1) in
  if Qeq_bool div 0 then 0
  else
    let floordiv := inject_Z (Qfloor div) in
    if Qltb (1 # 2) (fl (div - floordiv)) then fl (floordiv + 1) else floordiv.

(** [vx % wx] for floats, [wx <> 0] (CPython's [float_rem]). *)
Definition float_rem (vx wx : Q) : Q :=
  let mod' := fmod vx wx in
  if Qeq_bool mod' 0 then 0
  else if Bool.eqb (Qltb wx 0) (Qltb mod' 0) then mod' else fl (mod' + wx).

(** [CourseExecutor._format_time]:
<<
    mins = int(seconds // 60)
    secs = int(seconds % 60)
    return f"{mins:02d}:{secs:02d}"
>> *)
Definition _format_time (seconds : Q) : string :=
  let mins := py_int (float_floor_div seconds 60) in
  let secs := py_int (float_rem seconds 60) in
  fmt_02d mins ++ ":" ++ fmt_02d secs.

Definition is_digit (c : ascii) : bool :=
  (48 <=? nat_of_ascii c)%nat && (nat_of_ascii c <=? 57)%nat.

(** The shape [MM:SS]: two digits, a colon, two digits. *)
Definition is_mmss (s : string) : bool :=
  match list_ascii_of_string s with
  | [a; b; c; d; e] => is_digit a && is_digit b && Ascii.eqb c ":"%char && is_digit d && is_digit e
  | _ => false
  end.

End FormatTime.

(** ** Python [str] operations used by the parsers

    Strings are handled byte-wise (UTF-8). Every separator the code splits
    on is ASCII, and an ASCII byte never occurs inside the encoding of
    another character, so splitting bytes gives the pieces Python gives. *)
Module PyStr.

Definition nl : string := String "010"%char "".
Definition dq : string := String "034"%char "".

(** [t in s]. *)
Fixpoint contains (t s : string) : bool :=
  String.prefix t s || match s with "" => false | String _ r => contains t r end.

(** [s.split(sep)] for a non-empty [sep]: the scan goes left to right; an
    occurrence of [sep] closes the current piece and the scan resumes after
    it ([skip] counts the characters of the occurrence still to pass). *)
Fixpoint split_go (sep s : string) (skip : nat) (cur : string) : list string :=
  match s with
  | "" => [cur]
  | String c r =>
      match skip with
      | S k => split_go sep r k cur
      | O => if String.prefix sep s then cur :: split_go sep r (String.length sep - 1) ""
             else split_go sep r 0 (cur ++ String c "")
      end
  end.

Definition py_split (sep s : string) : list string := split_go sep s 0 "".

(** [s.split(sep)[0]]: [split] always returns at least one piece, so this
    index never raises. *)
Definition first_piece (sep s : string) : string := hd "" (py_split sep s).

(** [str.strip()]: [sp] is the set of characters [isspace] accepts. *)
Fixpoint lstrip (sp : ascii -> bool) (s : string) : string :=
  match s with "" => "" | String c r => if sp c then lstrip sp r else s end.

Fixpoint rev_str (s : string) : string :=
  match s with "" => "" | String c r => rev_str r ++ String c "" end.

Definition rstrip (sp : ascii -> bool) (s : string) : string := rev_str (lstrip sp (rev_str s)).

Definition strip (sp : ascii -> bool) (s : string) : string := rstrip sp (lstrip sp s).

(** The ASCII characters for which [str.isspace()] holds: tab to carriage
    return, the four separators [\x1c]-[\x1f], and the space. *)
Definition py_ascii_space (c : ascii) : bool :=
  let n := nat_of_ascii c in ((9 <=? n) && (n <=? 13) || (28 <=? n) && (n <=? 32))%nat.

(** Truthiness of an optional string ([None] or [''] are false). *)
Definition truthy (o : option string) : bool :=
  match o with Some v => negb (v =? "") | None => false end.

End PyStr.

(** ** [email.split('@')[0]]: the username derived from an inbox address
    ([ProductExplorer.explore_product] and
    [CourseExecutor.execute_all_courses]). *)
Module Username.
Import PyStr.

Definition username_of (email : string) : string := first_piece "@" email.

End Username.

(** ** ProductExplorer._parse_analysis (src/product_explorer.py) *)
Module ParseAnalysis.
Import PyStr.

Section PA.
  (** The characters [strip()] removes (the ASCII ones are
      [py_ascii_space]; the results below hold for any set). *)
Variable is_space : ascii -> bool.
  (** [re.split(r'### ACTION #\d+:', section)], left abstract: the results
      below hold for any splitter. *)
Variable re_split_actions : string -> list string.

Record action_data := mk_action_data {
    name : string; how_to_start : string; what_it_does : string; purpose : string }.

Record analysis := mk_analysis {
    product_overview : string; product_purpose : string; actions : list action_data;
    workflow : string; observations : string; raw_output : string }.

  (** [s.split(hdr)[1].split(stop)[0]]; [None] is the [IndexError] of
      [[1]]. *)
Definition between (hdr stop s : string) : option string :=
    match nth_error (py_split hdr s) 1 with
    | Some x => Some (first_piece stop x)
    | None => None
    end.

  (** [if hdr in s: field = s.split(hdr)[1].split(stop)[0].strip()], the
      field keeping its initial [''] otherwise. *)
Definition subsection (hdr stop s : string) : option string :=
    if contains hdr s then option_map (strip is_space) (between hdr stop s) else Some "".

  (** The body of [for block in action_blocks[1:]]. [lines] is never empty,
      so [if lines:] always holds. *)
Definition action_of_block (block : string) : option action_data :=
    let lines := py_split nl (strip is_space block) in
    let nm := match lines with l0 :: _ => strip is_space l0 | [] => "" end in
    match subsection "**How to Start" "**What This Action Does" block,
          subsection "**What This Action Does" "**Purpose" block,
          subsection "**Purpose" "###" block with
    | Some h, Some w, Some p => Some (mk_action_data nm h w p)
    | _, _, _ => None
    end.

Fixpoint map_option {A B : Type} (f : A -> option B) (l : list A) : option (list B) :=
    match l with
    | [] => Some []
    | x :: r =>
        match f x, map_option f r with
        | Some y, Some ys => Some (y :: ys)
        | _, _ => None
        end
    end.

Definition parse_actions (raw : string) : option (list action_data) :=
    if contains "## HIGH-LEVEL USER ACTIONS" raw then
      match nth_error (py_split "## HIGH-LEVEL USER ACTIONS" raw) 1 with
      | None => None
      | Some actions_section =>
          let actions_section :=
            if contains "## PRODUCT WORKFLOW" actions_section
            then first_piece "## PRODUCT WORKFLOW" actions_section else actions_section in
          map_option action_of_block (tl (re_split_actions actions_section))
      end
    else Some [].

  (** [None]: the function raised. *)
Definition _parse_analysis (raw_output : string) : option analysis :=
    match subsection "## PRODUCT OVERVIEW" "##" raw_output, parse_actions raw_output with
    | Some ov, Some acts => Some (mk_analysis ov "" acts "" "" raw_output)
    | _, _ => None
    end.
End PA.

End ParseAnalysis.

(** ** ProductExplorer._monitor_verification_email (src/product_explorer.py)

    The explorer's mutable attributes [session_id] and [task_id], the
    requests the monitor makes, and how it leaves them. The monitor awaits
    only inside [get_verification_data]; [stop_session], [create_session]
    and [create_task] are blocking calls with no [await], so a cancellation
    can only arrive before the result is known. *)
Module ExplorerMonitor.
Import Poll Inbox CreateSession PyStr.

Record explorer := mk_explorer { session_id : option string; task_id : option string }.

(** A key of a JSON payload that is sent only when its value is truthy. *)
Definition opt_field (key : string) (o : option string) : list (string * string) :=
  match o with Some v => if v =? "" then [] else [(key, v)] | None => [] end.

(** The payload of [ProductExplorer.create_task]. *)
Definition task_payload (task_description : string) (sid start_url : option string)
    : list (string * string) :=
  ([("task", task_description); ("llm", "browser-use-llm")]
     ++ opt_field "sessionId" sid ++ opt_field "startUrl" start_url)%list.

Definition continuation_task (task : string) : string :=
  nl ++ "NOTE: The email verification link has already been opened. You may already be verified."
     ++ nl ++ nl ++ task ++ nl ++ nl
     ++ "IMPORTANT: Since you're starting at the verification URL, you may skip directly to being logged in."
     ++ nl ++ "Check if you're already logged in. If not, proceed with login using the credentials above."
     ++ nl.

(** The requests the monitor makes: [PATCH] to stop a session (its
    exceptions are swallowed), the [create_session] attempts with their
    payload, and the [POST /tasks] with its payload. *)
Inductive effect :=
| StopSession (sid : option string)
| SessionAttempts (payload : list (string * string)) (events : list CreateSession.event)
| TaskPost (payload : list (string * string)).

Section EM.
Variable dict : Type.
  (** [.get('id')] of a session or task dictionary. *)
Variable get_id : dict -> option string.
  (** Attempt [k] of the session POST inside [create_session]. *)
Variable post_session : nat -> post_result dict.
  (** The task POST ([None]: it raised). *)
Variable post_task : list (string * string) -> option dict.
  (** [_build_exploration_task(product_url, email, username, password)]:
      the text of the task, left abstract. *)
Variable build_exploration_task : string -> string -> string -> string -> string.

  (** [result] is how [get_verification_data(timeout=90)] ended: returned,
      raised (caught by [except Exception]) or still polling when the task
      was cancelled (caught by [except CancelledError]). *)
Definition _monitor_verification_email (st : explorer) (result : outcome (option verification))
      (product_url email username password : string) : list effect * explorer :=
    match result with
    | Returned (Some r) _ =>
        if v_type r =? "link" then
          let value := v_value r in
          let old_session_id := session_id st in
          let '(evs, res) := create_session dict post_session default_retries in
          let fx := [StopSession old_session_id; SessionAttempts (opt_field "startUrl" (Some value)) evs] in
          match res with
          | Raise _ => (fx, st)
          | Created verify_session =>
              (* create_session set self.session_id; the monitor sets it again *)
              let st1 := mk_explorer (get_id verify_session) (task_id st) in
              let payload :=
                task_payload (continuation_task (build_exploration_task product_url email username password))
                             (session_id st1) (Some value) in
              match post_task payload with
              | None => ((fx ++ [TaskPost payload])%list, st1)
              | Some verify_task =>
                  ((fx ++ [TaskPost payload])%list, mk_explorer (session_id st1) (get_id verify_task))
              end
          end
        else ([], st)
    | _ => ([], st)
    end.
End EM.

End ExplorerMonitor.

(** ** CourseExecutor._build_course_task (src/course_executor.py) *)
Module CourseTask.
Import PyStr.

Section CT.
  (** A JSON value of the demos file and its rendering in an f-string. *)
Variable val : Type.
Variable py_str : val -> string.
  (** [urlparse(url).netloc]. *)
Variable netloc : string -> string.

Record ui_step := mk_ui_step {
    step_number : option val; action : option val; expected_result : option val }.
Record implementation := mk_implementation {
    starting_point : option val; ui_steps : option (list ui_step); expected_outcome : option val }.
Record course := mk_course {
    title : option val; key_idea : option val; impl : option implementation }.

  (** [f"{d.get(key, default)}"] for a string default. *)
Definition get_str (o : option val) (default : string) : string :=
    match o with Some v => py_str v | None => default end.

Definition impl_of (c : course) : implementation :=
    match impl c with Some i => i | None => mk_implementation None None None end.

Definition steps_of (c : course) : list ui_step :=
    match ui_steps (impl_of c) with Some l => l | None => [] end.

  (** The text appended for one UI step. *)
Definition step_block (s : ui_step) : string :=
    nl ++ "Step " ++ get_str (step_number s) "0" ++ ": " ++ get_str (action s) "" ++ nl
       ++ "Expected result: " ++ get_str (expected_result s) "" ++ nl.

Definition task_head (c : course) (product_url : string) : string :=
    nl ++ "You are demonstrating the course: " ++ dq ++ get_str (title c) "Course" ++ dq ++ nl ++ nl
       ++ "IMPORTANT: Stay on " ++ netloc product_url
       ++ " throughout. Complete this specific course demo." ++ nl ++ nl
       ++ "COURSE OBJECTIVE:" ++ nl ++ get_str (key_idea c) "Complete the course" ++ nl ++ nl
       ++ "STARTING POINT: " ++ get_str (starting_point (impl_of c)) "Home page" ++ nl ++ nl
       ++ "STEP-BY-STEP INSTRUCTIONS:" ++ nl.

Definition task_tail (c : course) (email password : string) : string :=
    nl ++ nl ++ "CREDENTIALS (if needed):" ++ nl ++ "- Email: " ++ email ++ nl
       ++ "- Password: " ++ password ++ nl ++ nl ++ "EXPECTED OUTCOME:" ++ nl
       ++ get_str (expected_outcome (impl_of c)) "Course completed successfully" ++ nl ++ nl
       ++ "Execute each step carefully and verify the expected results." ++ nl
       ++ "Provide a summary of what was accomplished." ++ nl.

  (** [task += ...] over the steps, from the text built so far. *)
Fixpoint append_steps (task : string) (steps : list ui_step) : string :=
    match steps with [] => task | s :: r => append_steps (task ++ step_block s) r end.

Definition _build_course_task (c : course) (email password product_url : string) : string :=
    append_steps (task_head c product_url) (steps_of c) ++ task_tail c email password.
End CT.

End CourseTask.

(** ** CourseExecutor.execute_course (src/course_executor.py)

    The requests one course run makes, in program order, and the result
    dictionary it returns. The signup wait and the email monitor run
    concurrently; the trace lists the monitor's start before the wait.
    Durations and timestamps are left out. *)
Module ExecuteCourse.
Import PyStr CourseTask.

Inductive request :=
| Sleep (seconds : Z)
| CreateSession (start_url : string)
| CreateTask (session_id description start_url : string)
| MonitorEmail
| WaitTask (task_id : string) (capture_timeline : bool)
| StopSession (session_id : string)
| RecordLive (live_url session_id task_id : string) (course_index : nat) (estimated_duration : Z)
| ShareLink (session_id : string).

Definition signup_task_desc (email password : string) : string :=
  nl ++ "Sign up for a new account on this website." ++ nl ++ nl
     ++ "Credentials:" ++ nl ++ "- Email: " ++ email ++ nl ++ "- Password: " ++ password ++ nl ++ nl
     ++ "Steps:" ++ nl
     ++ "1. Find and click the " ++ dq ++ "Sign Up" ++ dq ++ " or " ++ dq ++ "Create Account" ++ dq
     ++ " button" ++ nl
     ++ "2. Fill in the signup form with the credentials above" ++ nl
     ++ "3. Submit the form" ++ nl
     ++ "4. If asked to verify email, wait on the verification page" ++ nl ++ nl
     ++ "Do NOT proceed past the " ++ dq ++ "verify your email" ++ dq ++ " message." ++ nl.

Definition full_task (email password course_task_desc : string) : string :=
  nl ++ "STEP 1: Complete email verification" ++ nl
     ++ "You are starting at the verification URL. Wait for the page to load and verify." ++ nl ++ nl
     ++ "STEP 2: Login if needed" ++ nl ++ "After verification, you may need to login:" ++ nl
     ++ "- Email: " ++ email ++ nl ++ "- Password: " ++ password ++ nl ++ nl
     ++ "STEP 3: Execute course demo" ++ nl ++ course_task_desc ++ nl ++ nl
     ++ "Complete all steps of the course demonstration." ++ nl.

Section EC.
Variable val : Type.
Variable py_str : val -> string.
Variable netloc : string -> string.
  (** One timeline event dictionary. *)
Variable ev : Type.

  (** The result dictionary: the early failure, or a finished run. *)
Inductive course_result :=
| NoVerificationEmail (course_index : nat) (course_title : val + string)
| CourseRun (course_index : nat) (course_title : val + string) (status session_id task_id : string)
    (share_url video_file : option string) (email password live_url : string)
    (timeline_events : list ev) (total_steps : nat).

  (** The answers of the calls: the [n]-th [_create_session] ([id] and
      [liveUrl]; [None]: it raised, a missing key included), the [n]-th
      [_create_task] ([id]), the [n]-th [_wait_for_task] (status and
      timeline), the email monitor (its URL or [None]), the recording (its
      file or [None]) and the share link. In each outer [option], [None]
      means the awaited call raised. *)
Variable session_at : nat -> option (string * string).
Variable task_at : nat -> option string.
Variable wait_at : nat -> option (string * list ev).
Variable email_result : option (option string).
Variable video_result : option (option string).
Variable share : option string.

Definition title_of (c : course val) (course_index : nat) : val + string :=
    match title val c with Some v => inl v | None => inr ("Course " ++ str_of_nat (course_index + 1)) end.

  (** [None] in the second component: the coroutine raised. *)
Definition execute_course (c : course val) (course_index : nat) (product_url email password : string)
      (capture_timeline : bool) : list request * option course_result :=
    let course_title := title_of c course_index in
    let stagger := if Nat.ltb 0 course_index then [Sleep (Z.of_nat course_index * 10)] else [] in
    match session_at 0 with
    | None => ((stagger ++ [CreateSession product_url])%list, None)
    | Some (signup_session_id, _) =>
        let t1 := (stagger ++ [CreateSession product_url;
                               CreateTask signup_session_id (signup_task_desc email password) product_url])%list in
        match task_at 0 with
        | None => (t1, None)
        | Some signup_task_id =>
            let t2 := (t1 ++ [MonitorEmail; WaitTask signup_task_id false])%list in
            match wait_at 0, email_result with
            | None, _ => (t2, None)
            | Some _, None => (t2, None)
            | Some _, Some verification_url =>
                match verification_url with
                | Some u =>
                    if truthy (Some u) then
                      let t3 := (t2 ++ [StopSession signup_session_id; CreateSession u])%list in
                      match session_at 1 with
                      | None => (t3, None)
                      | Some (course_session_id, live) =>
                          let desc := full_task email password
                                        (_build_course_task val py_str netloc c email password product_url) in
                          let t4 := (t3 ++ [CreateTask course_session_id desc u])%list in
                          match task_at 1 with
                          | None => (t4, None)
                          | Some course_task_id =>
                              let t5 := (t4 ++ [RecordLive live course_session_id course_task_id course_index 120;
                                                WaitTask course_task_id capture_timeline])%list in
                              match wait_at 1, video_result with
                              | None, _ => (t5, None)
                              | Some _, None => (t5, None)
                              | Some (st, timeline_events), Some video_file =>
                                  ((t5 ++ [ShareLink course_session_id])%list,
                                   Some (CourseRun course_index course_title st course_session_id course_task_id
                                           share video_file email password live
                                           (if capture_timeline then timeline_events else [])
                                           (if capture_timeline then List.length timeline_events else 0)))
                              end
                          end
                      end
                    else ((t2 ++ [StopSession signup_session_id])%list,
                          Some (NoVerificationEmail course_index course_title))
                | None => ((t2 ++ [StopSession signup_session_id])%list,
                           Some (NoVerificationEmail course_index course_title))
                end
            end
        end
    end.
End EC.

End ExecuteCourse.

(** ** The timeline preview of CourseExecutor.save_execution_results *)
Module Preview.

Section PV.
Variable A : Type.
  (** The [{'t_formatted': '...', ...}] marker entry. *)
Variable marker : A.

  (** [timeline_events[:5]], then the marker and the last two events when
      there are more than seven, or the rest when there are six or seven. *)
Definition preview_events (timeline_events : list A) : list A :=
    let preview := firstn 5 timeline_events in
    let n := List.length timeline_events in
    if Nat.ltb 7 n then (preview ++ [marker] ++ skipn (n - 2) timeline_events)%list
    else if Nat.ltb 5 n then (preview ++ skipn 5 timeline_events)%list
    else preview.
End PV.

(** [plan = memory[:200].replace('\n', ' ')], then ['...'] when the memory
    is longer than 200. A Python [str] is a sequence of code points, here
    [list N]. *)
Definition plan (memory : list N) : list N :=
  let p := map (fun c => if N.eqb c 10 then 32%N else c) (firstn 200 memory) in
  if Nat.ltb 200 (List.length memory) then (p ++ [46; 46; 46]%N)%list else p.

End Preview.

(** * Proofs *)

(** ** String lemmas *)

Lemma str_app_assoc (a b c : string) : (a ++ b) ++ c = a ++ (b ++ c).
Proof. induction a as [|x a IH]; simpl; [reflexivity | now rewrite IH]. Qed.

Lemma str_app_nil_r (a : string) : a ++ "" = a.
Proof. induction a as [|x a IH]; simpl; [reflexivity | now rewrite IH]. Qed.

Lemma substr_refl (s : string) : substr_of s s.
Proof. exists "", "". simpl. now rewrite str_app_nil_r. Qed.

Lemma substr_trans (t u s : string) : substr_of t u -> substr_of u s -> substr_of t s.
Proof.
  intros [p1 [q1 E1]] [p2 [q2 E2]]. subst.
  exists (p2 ++ p1), (q1 ++ q2). now rewrite !str_app_assoc.
Qed.

Lemma substr_app_l (t u s : string) : substr_of t s -> substr_of t (u ++ s).
Proof. intros [p [q E]]. subst. exists (u ++ p), q. now rewrite str_app_assoc. Qed.

Lemma substr_app_r (t u s : string) : substr_of t s -> substr_of t (s ++ u).
Proof. intros [p [q E]]. subst. exists p, (q ++ u). now rewrite !str_app_assoc. Qed.

Lemma substr_prefix (t u : string) : substr_of t (t ++ u).
Proof. exists "", u. reflexivity. Qed.

Lemma substr_suffix (t u : string) : substr_of t (u ++ t).
Proof. exists u, "". now rewrite str_app_nil_r. Qed.

Module VideoComposerProofs.
Import VideoComposer.

Section Proofs.
Variable num : Type.
Variable py_add : num -> num -> num.
Variable py_str : num -> string.
Variable int_ms : num -> Z.
Variable lit0 lit5 : num.

Lemma segment_in_segments_filters (intro : num) (segs : list (segment num)) :
    forall (k i : nat) (seg : segment num), nth_error segs i = Some seg ->
    substr_of (segment_filters num py_add py_str int_ms lit0 lit5 intro (k + i) seg)
              (segments_filters num py_add py_str int_ms lit0 lit5 intro k segs).
  Proof.
    induction segs as [|s rest IH]; intros k i seg Hi; destruct i as [|i]; simpl in Hi.
    - discriminate.
    - discriminate.
    - injection Hi as <-. rewrite Nat.add_0_r. cbn [segments_filters]. apply substr_prefix.
    - cbn [segments_filters]. apply substr_app_l. replace (k + S i) with (S k + i) by lia. now apply IH.
  Qed.

  (** C1: every segment contributes its video input, its delayed audio and
      its time-windowed overlay to the filter graph. *)
Theorem build_overlay_filter_segment_clauses
      (segs : list (segment num)) (intro_duration : num) (browser_has_audio : bool)
      (i : nat) (seg : segment num) (Hi : nth_error segs i = Some seg) :
    let start := py_add (get_start num lit0 seg) intro_duration in
    let stop := py_add start (get_duration num lit5 seg) in
    let start_ms := int_ms start in
    let f := _build_overlay_filter num py_add py_str int_ms lit0 lit5 segs intro_duration
               browser_has_audio in
    substr_of ("[" ++ str_of_nat (i + 2) ++ ":v]scale=320:180,setpts=PTS+" ++ py_str start
                 ++ "/TB[v" ++ str_of_nat i ++ "];") f /\
    substr_of ("[v" ++ str_of_nat i ++ "]overlay=x=W-w-20:y=20:enable='between(t,"
                 ++ py_str start ++ "," ++ py_str stop ++ ")':eof_action=pass[tmp"
                 ++ str_of_nat i ++ "];") f /\
    substr_of ("[" ++ str_of_nat (i + 2) ++ ":a]atrim=duration=" ++ py_str (get_duration num lit5 seg)
                 ++ ",asetpts=PTS-STARTPTS,adelay=" ++ str_of_Z start_ms ++ "|"
                 ++ str_of_Z start_ms ++ "[a" ++ str_of_nat i ++ "];") f.
  Proof.
    intros start stop start_ms f.
    assert (Hseg : substr_of (segment_filters num py_add py_str int_ms lit0 lit5 intro_duration i seg) f).
    { unfold f, _build_overlay_filter. apply substr_app_l. apply substr_app_r.
      apply (segment_in_segments_filters intro_duration segs 0 i seg Hi). }
    unfold segment_filters in Hseg. fold start stop start_ms in Hseg.
    repeat split; eapply substr_trans; try exact Hseg.
    - apply substr_prefix.
    - apply substr_app_l, substr_app_l. unfold overlay_filter. apply substr_suffix.
    - apply substr_app_l, substr_prefix.
  Qed.

Variable lit12 : num.
Variable absolute : string -> string.

  (** C8: with no narration segment the composer only concatenates (intro
      first, then the converted browser recording) and never builds an
      overlay filter; the filter built for an empty list would read the pad
      [tmp-1], which no chain of it defines. *)
Theorem compose_empty_segments_simple_concat
      (has_audio : string -> bool) (probe_duration : string -> num) (temp_exists ok : bool)
      (output_dir intro_video browser_recording output_file : string)
      (intro_duration : num) (browser_has_audio : bool) :
    let run := _compose_with_ffmpeg num py_add py_str int_ms lit0 lit5 lit12 absolute
                 has_audio probe_duration temp_exists ok output_dir intro_video
                 browser_recording [] output_file in
    let g := _build_overlay_filter num py_add py_str int_ms lit0 lit5 [] intro_duration
               browser_has_audio in
    run = _simple_concatenate absolute temp_exists output_dir intro_video
            browser_recording output_file /\
    (forall fc, ~ In (BuildFilter fc) run) /\
    In (WriteConcatList ["file '" ++ absolute intro_video ++ "'";
                             "file '" ++ absolute (temp_browser output_dir) ++ "'"]) run /\
    In "tmp-1" (graph_inputs g) /\ ~ In "tmp-1" (graph_outputs g).
  Proof.
    intros run g. unfold run, g.
    split; [reflexivity|].
    split; [|split; [|destruct browser_has_audio; vm_compute; split; (tauto || intuition discriminate)]].
    - intros fc H. unfold _simple_concatenate in H.
      destruct temp_exists; simpl in H; intuition discriminate.
    - unfold _simple_concatenate. destruct temp_exists; simpl; tauto.
  Qed.
End Proofs.

End VideoComposerProofs.

Module PollProofs.
Import Poll.

Section WaitForTaskCompletion.
Variable dict : Type.
Variable status : dict -> option string.
Variable delay : nat -> Z.
Variable task_id_at : nat -> string.
Variable get : nat -> string -> http dict.
Variable check_interval : Z.

Let wftc := wait_for_task_completion dict status delay task_id_at get check_interval.

  (** Name the recursive call of the loop body. *)
Ltac destr_rec :=
    match goal with
    | H : context [wait_for_task_completion ?a ?b ?c ?d ?e ?g ?f (S ?k) ?n] |- _ =>
        let R := fresh "R" in
        destruct (wait_for_task_completion a b c d e g f (S k) n) as [tr' o] eqn:R
    end.

Definition wftc_poll_terminal (k : nat) : bool :=
    match get k (task_id_at k) with HOk d => terminal (status d) | HErr => false end.

Lemma wftc_trace_ids (fuel k : nat) (now : Z) :
    forall m x, nth_error (fst (wftc fuel k now)) m = Some x -> x = task_id_at (k + m).
  Proof.
    unfold wftc. revert k now. induction fuel as [|f IH]; intros k now m x Hm.
    - destruct m; discriminate.
    - cbn [wait_for_task_completion] in Hm.
      destruct (get k (task_id_at k)) as [d|].
      + destruct (terminal (status d)).
        * destruct m as [|[|m]]; cbn in Hm; try discriminate.
          injection Hm as <-. now rewrite Nat.add_0_r.
        * destr_rec.
          destruct m as [|m]; cbn in Hm.
          -- injection Hm as <-. now rewrite Nat.add_0_r.
          -- pose proof (f_equal fst R) as R'. cbn in R'. rewrite <- R' in Hm.
             apply IH in Hm. rewrite Hm. f_equal. lia.
      + destr_rec.
        destruct m as [|m]; cbn in Hm.
        -- injection Hm as <-. now rewrite Nat.add_0_r.
        -- pose proof (f_equal fst R) as R'. cbn in R'. rewrite <- R' in Hm.
           apply IH in Hm. rewrite Hm. f_equal. lia.
  Qed.

  (** If the loop returns, it returned the answer of its last poll, the
      first one whose status is terminal; the trace has one id per poll. *)
Lemma wftc_returns_first (fuel k : nat) (now : Z) (tr : list string) (d : dict) (t : Z) :
    wftc fuel k now = (tr, Returned d t) ->
    exists j, k <= j < k + fuel /\ get j (task_id_at j) = HOk d /\ terminal (status d) = true /\
      (forall m, k <= m < j -> wftc_poll_terminal m = false) /\ List.length tr = S (j - k).
  Proof.
    unfold wftc. revert k now tr. induction fuel as [|f IH]; intros k now tr H.
    - discriminate.
    - cbn [wait_for_task_completion] in H.
      destruct (get k (task_id_at k)) as [d'|] eqn:E.
      + destruct (terminal (status d')) eqn:T.
        * injection H as <- <- _. exists k. repeat split; try lia; auto.
          rewrite Nat.sub_diag. reflexivity.
        * destr_rec.
          injection H as <- ->. destruct (IH _ _ _ R) as (j & Hj & Hg & Ht & Hm & Hl).
          exists j. repeat split; auto; try lia.
          -- intros m Hm'. destruct (Nat.eq_dec m k) as [->|].
             ++ unfold wftc_poll_terminal. now rewrite E.
             ++ apply Hm. lia.
          -- cbn. rewrite Hl. f_equal. lia.
      + destr_rec.
        injection H as <- ->. destruct (IH _ _ _ R) as (j & Hj & Hg & Ht & Hm & Hl).
        exists j. repeat split; auto; try lia.
        * intros m Hm'. destruct (Nat.eq_dec m k) as [->|].
          -- unfold wftc_poll_terminal. now rewrite E.
          -- apply Hm. lia.
        * cbn. rewrite Hl. f_equal. lia.
  Qed.

  (** A terminal poll preceded only by non-terminal ones makes the loop
      return that poll's dictionary. *)
Lemma wftc_first_terminal_returns (fuel k j : nat) (now : Z) (d : dict) :
    k <= j < k + fuel ->
    (forall m, k <= m < j -> wftc_poll_terminal m = false) ->
    get j (task_id_at j) = HOk d -> terminal (status d) = true ->
    exists tr t, wftc fuel k now = (tr, Returned d t).
  Proof.
    unfold wftc. revert k now. induction fuel as [|f IH]; intros k now Hj Hpre Hg Ht.
    - lia.
    - cbn [wait_for_task_completion].
      destruct (Nat.eq_dec j k) as [->|Hne].
      + rewrite Hg, Ht. eauto.
      + assert (Hk : wftc_poll_terminal k = false) by (apply Hpre; lia).
        unfold wftc_poll_terminal in Hk.
        destruct (get k (task_id_at k)) as [d'|].
        * rewrite Hk.
          destruct (IH (S k) (now + check_interval * 1000 + delay k)%Z) as (tr & t & R);
            [lia | intros m Hm; apply Hpre; lia | exact Hg | exact Ht |].
          rewrite R. eauto.
        * destruct (IH (S k) (now + check_interval * 1000 + delay k + 5000)%Z) as (tr & t & R);
            [lia | intros m Hm; apply Hpre; lia | exact Hg | exact Ht |].
          rewrite R. eauto.
  Qed.

  (** Without a terminal status the loop is still polling after [fuel]
      polls, and its clock has advanced by at least [check_interval]
      seconds per poll. *)
Lemma wftc_no_terminal_polls (fuel k : nat) (now : Z) :
    (0 <= check_interval)%Z -> (forall m, (0 <= delay m)%Z) ->
    (forall m, k <= m < k + fuel -> wftc_poll_terminal m = false) ->
    exists tr t, wftc fuel k now = (tr, Polling t) /\
      (now + Z.of_nat fuel * check_interval * 1000 <= t)%Z.
  Proof.
    unfold wftc. intros Hci Hd. revert k now. induction fuel as [|f IH]; intros k now Hpre.
    - exists [], now. split; [reflexivity | lia].
    - cbn [wait_for_task_completion].
      assert (Hk : wftc_poll_terminal k = false) by (apply Hpre; lia).
      unfold wftc_poll_terminal in Hk. specialize (Hd k).
      destruct (get k (task_id_at k)) as [d'|].
      + rewrite Hk.
        destruct (IH (S k) (now + check_interval * 1000 + delay k)%Z) as (tr & t & R & Ht);
          [intros m Hm; apply Hpre; lia|].
        rewrite R. exists (task_id_at k :: tr), t. split; [reflexivity | lia].
      + destruct (IH (S k) (now + check_interval * 1000 + delay k + 5000)%Z) as (tr & t & R & Ht);
          [intros m Hm; apply Hpre; lia|].
        rewrite R. exists (task_id_at k :: tr), t. split; [reflexivity | lia].
  Qed.
End WaitForTaskCompletion.

Section WaitForTask.
Variable dict : Type.
Variable status : dict -> option string.
Variable delay : nat -> Z.
Variable resp : nat -> http dict.
Variable step : Type.
Variable steps : dict -> list step.

Definition wft_ok_nonterminal (m : nat) : Prop :=
    exists d, resp m = HOk d /\ terminal (status d) = false.

Ltac destr_timeline cap :=
    destruct cap; cbn [fst snd].

Lemma wft_returns_first (cap : bool) (fuel k : nat) (start now : Z) (last : nat)
      (tl : list (step * Z)) (d : dict) (tl' : list (step * Z)) (t : Z) :
    _wait_for_task dict status delay resp step steps cap fuel k start now last tl = Returned (d, tl') t ->
    exists j, k <= j < k + fuel /\ resp j = HOk d /\ terminal (status d) = true /\
      (forall m, k <= m < j -> wft_ok_nonterminal m).
  Proof.
    revert k now last tl. induction fuel as [|f IH]; intros k now last tl H.
    - discriminate.
    - cbn [_wait_for_task] in H.
      destruct (resp k) as [d'|] eqn:E; [|discriminate].
      destruct cap; destruct (terminal (status d')) eqn:T.
      1,3: injection H as <- _ _; exists k; repeat split; auto; lia.
      all: apply IH in H; destruct H as (j & Hj & Hr & Ht & Hm);
           exists j; repeat split; auto; try lia;
           intros m Hm'; destruct (Nat.eq_dec m k) as [->|];
           [exists d'; auto | apply Hm; lia].
  Qed.

Lemma wft_first_terminal_returns (cap : bool) (fuel k j : nat) (start now : Z) (last : nat)
      (tl : list (step * Z)) (d : dict) :
    k <= j < k + fuel -> (forall m, k <= m < j -> wft_ok_nonterminal m) ->
    resp j = HOk d -> terminal (status d) = true ->
    exists tl' t, _wait_for_task dict status delay resp step steps cap fuel k start now last tl
                  = Returned (d, tl') t.
  Proof.
    revert k now last tl. induction fuel as [|f IH]; intros k now last tl Hj Hpre Hr Ht.
    - lia.
    - cbn [_wait_for_task].
      destruct (Nat.eq_dec j k) as [->|Hne].
      + rewrite Hr. destruct cap; rewrite Ht; eauto.
      + destruct (Hpre k) as (d' & E & T); [lia|]. rewrite E.
        destruct cap; rewrite T; apply IH; auto; try lia; intros m Hm; apply Hpre; lia.
  Qed.

Lemma wft_error_raises (cap : bool) (fuel k j : nat) (start now : Z) (last : nat)
      (tl : list (step * Z)) :
    k <= j < k + fuel -> (forall m, k <= m < j -> wft_ok_nonterminal m) ->
    resp j = HErr ->
    exists t, _wait_for_task dict status delay resp step steps cap fuel k start now last tl = Raised t.
  Proof.
    revert k now last tl. induction fuel as [|f IH]; intros k now last tl Hj Hpre Hr.
    - lia.
    - cbn [_wait_for_task].
      destruct (Nat.eq_dec j k) as [->|Hne].
      + rewrite Hr. eauto.
      + destruct (Hpre k) as (d' & E & T); [lia|]. rewrite E.
        destruct cap; rewrite T; apply IH; auto; try lia; intros m Hm; apply Hpre; lia.
  Qed.

Lemma wft_raised_first (cap : bool) (fuel k : nat) (start now : Z) (last : nat)
      (tl : list (step * Z)) (t : Z) :
    _wait_for_task dict status delay resp step steps cap fuel k start now last tl = Raised t ->
    exists j, k <= j < k + fuel /\ resp j = HErr /\
      (forall m, k <= m < j -> wft_ok_nonterminal m).
  Proof.
    revert k now last tl. induction fuel as [|f IH]; intros k now last tl H.
    - discriminate.
    - cbn [_wait_for_task] in H.
      destruct (resp k) as [d'|] eqn:E.
      + destruct cap; destruct (terminal (status d')) eqn:T; try discriminate.
        all: apply IH in H; destruct H as (j & Hj & Hr & Hm);
          exists j; repeat split; auto; try lia;
          intros m Hm'; destruct (Nat.eq_dec m k) as [->|];
          [exists d'; auto | apply Hm; lia].
      + exists k. repeat split; auto; try lia; intros m Hm; lia.
  Qed.

Lemma wft_no_terminal_polls (cap : bool) (fuel k : nat) (start now : Z) (last : nat)
      (tl : list (step * Z)) :
    (forall m, (0 <= delay m)%Z) -> (forall m, k <= m < k + fuel -> wft_ok_nonterminal m) ->
    exists t, _wait_for_task dict status delay resp step steps cap fuel k start now last tl = Polling t /\
      (now + Z.of_nat fuel * 2000 <= t)%Z.
  Proof.
    intros Hd. revert k now last tl. induction fuel as [|f IH]; intros k now last tl Hpre.
    - exists now. split; [reflexivity | lia].
    - cbn [_wait_for_task].
      destruct (Hpre k) as (d' & E & T); [lia|]. rewrite E. specialize (Hd k).
      destruct cap.
      + cbn. rewrite T.
        destruct (IH (S k) (now + 2000 + delay k)%Z (List.length (steps d'))
                     ((tl ++ map (fun st => (st, (now + 2000 + delay k - start)%Z))
                                 (skipn last (steps d')))%list)) as (t & R & Ht);
          [intros m Hm; apply Hpre; lia|].
        rewrite R. exists t. split; [reflexivity | lia].
      + cbn. rewrite T.
        destruct (IH (S k) (now + 2000 + delay k)%Z last tl) as (t & R & Ht);
          [intros m Hm; apply Hpre; lia|].
        rewrite R. exists t. split; [reflexivity | lia].
  Qed.
End WaitForTask.

Section Monitor.
Variable dict : Type.
Variable status : dict -> option string.
Variable delay : nat -> Z.

Definition mon_poll_terminal (mr : nat -> mon_response dict) (m : nat) : bool :=
    match mr m with M200 d => terminal (status d) | _ => false end.

Lemma monitor_completed_first (max_wait : Z) (fuel k : nat) (start now : Z)
      (mr : nat -> mon_response dict) (st : option string) (t : Z) :
    _monitor_task_completion dict status delay max_wait fuel k start now mr
      = Returned (TaskCompleted st) t ->
    exists j d, k <= j < k + fuel /\ mr j = M200 d /\ status d = st /\ terminal st = true /\
      (forall m, k <= m < j -> mon_poll_terminal mr m = false).
  Proof.
    revert k now. induction fuel as [|f IH]; intros k now H.
    - discriminate.
    - cbn [_monitor_task_completion] in H.
      destruct (now - start <? max_wait * 1000)%Z; [|discriminate].
      destruct (mr k) as [d'| |] eqn:E.
      + destruct (terminal (status d')) eqn:T.
        * injection H as <- _. exists k, d'. repeat split; auto; lia.
        * apply IH in H. destruct H as (j & d & Hj & Hm & Hs & Ht & Hpre).
          exists j, d. repeat split; auto; try lia.
          intros m Hm'. destruct (Nat.eq_dec m k) as [->|].
          -- unfold mon_poll_terminal. now rewrite E.
          -- apply Hpre. lia.
      + apply IH in H. destruct H as (j & d & Hj & Hm & Hs & Ht & Hpre).
        exists j, d. repeat split; auto; try lia.
        intros m Hm'. destruct (Nat.eq_dec m k) as [->|].
        -- unfold mon_poll_terminal. now rewrite E.
        -- apply Hpre. lia.
      + apply IH in H. destruct H as (j & d & Hj & Hm & Hs & Ht & Hpre).
        exists j, d. repeat split; auto; try lia.
        intros m Hm'. destruct (Nat.eq_dec m k) as [->|].
        -- unfold mon_poll_terminal. now rewrite E.
        -- apply Hpre. lia.
  Qed.

  (** The [while] condition bounds the loop: once the remaining budget is
      covered by the five-second sleeps, the loop has left. *)
Lemma monitor_bounded (max_wait : Z) (fuel k : nat) (start now : Z)
      (mr : nat -> mon_response dict) :
    (forall m, (0 <= delay m)%Z) ->
    (start + max_wait * 1000 - now < 5000 * Z.of_nat fuel)%Z ->
    forall t, _monitor_task_completion dict status delay max_wait (S fuel) k start now mr <> Polling t.
  Proof.
    intros Hd. revert k now. induction fuel as [|f IH]; intros k now Hb t.
    - cbn [_monitor_task_completion].
      destruct (now - start <? max_wait * 1000)%Z eqn:C; [|discriminate].
      apply Z.ltb_lt in C. lia.
    - cbn [_monitor_task_completion].
      destruct (now - start <? max_wait * 1000)%Z eqn:C; [|discriminate].
      specialize (Hd k).
      destruct (mr k) as [d'| |]; [destruct (terminal (status d')); [discriminate|]| |];
        apply IH; lia.
  Qed.
End Monitor.

(** C2: every poll reads [self.task_id] afresh. Once the verification
    monitor has switched it to [new_id] (from poll [k0] on), every later
    poll asks for [new_id]; if the loop was still polling then, the
    dictionary it returns is the terminal answer for [new_id]. *)
Theorem wait_for_task_completion_follows_task_id
    (dict : Type) (status : dict -> option string) (delay : nat -> Z)
    (task_id_at : nat -> string) (get : nat -> string -> http dict) (check_interval : Z)
    (fuel : nat) (now : Z) (k0 : nat) (new_id : string) (tr : list string) (d : dict) (t : Z)
    (Hswitch : forall k, k0 <= k -> task_id_at k = new_id)
    (Hrun : wait_for_task_completion dict status delay task_id_at get check_interval fuel 0 now
            = (tr, Returned d t))
    (Hlate : k0 < List.length tr) :
  (forall j x, nth_error tr j = Some x -> x = task_id_at j) /\
  (forall j x, k0 <= j -> nth_error tr j = Some x -> x = new_id) /\
  exists j, k0 <= j /\ get j new_id = HOk d /\ terminal (status d) = true.
Proof.
  assert (Hids : forall j x, nth_error tr j = Some x -> x = task_id_at j).
  { intros j x Hj. pose proof (wftc_trace_ids dict status delay task_id_at get check_interval
                                 fuel 0 now j x) as H.
    rewrite Hrun in H. exact (H Hj). }
  split; [exact Hids|]. split.
  - intros j x Hj Hx. rewrite (Hids j x Hx). now apply Hswitch.
  - destruct (wftc_returns_first dict status delay task_id_at get check_interval fuel 0 now tr d t Hrun)
      as (j & Hj & Hg & Ht & _ & Hl).
    exists j. rewrite Nat.sub_0_r in Hl.
    assert (k0 <= j) by lia. rewrite <- (Hswitch j) by lia. auto.
Qed.

(** C3 (as stated, refuted): [LiveVideoRecorder._monitor_task_completion]
    stops polling without ever seeing a terminal status: with every poll
    answering ['running'] and the default [max_wait] of 300 s it leaves the
    loop at 300 s and reports the maximum recording time. *)
Lemma monitor_stops_on_max_wait_without_terminal :
  terminal (Some "running") = false /\
  _monitor_task_completion (option string) (fun st => st) (fun _ => 0%Z) 300 100 0 0 0
    (fun _ => M200 (Some "running")) = Returned MaxRecordingTime 300000%Z.
Proof. split; vm_compute; reflexivity. Qed.

(** C3 (amended): the two unbounded loops return exactly at the first poll
    with a terminal status and go on after any other status; an HTTP error
    ends [_wait_for_task] by raising, and it raises only at such an error;
    [_monitor_task_completion] reports completion only at such a poll, goes
    on after other statuses while less than [max_wait] seconds have passed,
    and leaves once [max_wait] has passed. *)
Theorem task_polling_exits_on_terminal_status
    (dict : Type) (status : dict -> option string) (delay : nat -> Z) :
  (forall task_id_at get check_interval fuel now tr d t,
     wait_for_task_completion dict status delay task_id_at get check_interval fuel 0 now
       = (tr, Returned d t) ->
     exists j, get j (task_id_at j) = HOk d /\ terminal (status d) = true /\
       forall m, m < j -> wftc_poll_terminal dict status task_id_at get m = false) /\
  (forall task_id_at get check_interval fuel now j d,
     j < fuel -> (forall m, m < j -> wftc_poll_terminal dict status task_id_at get m = false) ->
     get j (task_id_at j) = HOk d -> terminal (status d) = true ->
     exists tr t, wait_for_task_completion dict status delay task_id_at get check_interval fuel 0 now
                    = (tr, Returned d t)) /\
  (forall resp step steps cap fuel start now tl d tl' t,
     _wait_for_task dict status delay resp step steps cap fuel 0 start now 0 tl = Returned (d, tl') t ->
     exists j, resp j = HOk d /\ terminal (status d) = true /\
       forall m, m < j -> wft_ok_nonterminal dict status resp m) /\
  (forall resp step steps cap fuel start now tl j d,
     j < fuel -> (forall m, m < j -> wft_ok_nonterminal dict status resp m) ->
     resp j = HOk d -> terminal (status d) = true ->
     exists tl' t, _wait_for_task dict status delay resp step steps cap fuel 0 start now 0 tl
                     = Returned (d, tl') t) /\
  (forall resp step steps cap fuel start now tl j,
     j < fuel -> (forall m, m < j -> wft_ok_nonterminal dict status resp m) ->
     resp j = HErr ->
     exists t, _wait_for_task dict status delay resp step steps cap fuel 0 start now 0 tl
                 = Raised t) /\
  (forall resp step steps cap fuel start now tl t,
     _wait_for_task dict status delay resp step steps cap fuel 0 start now 0 tl = Raised t ->
     exists j, resp j = HErr /\ forall m, m < j -> wft_ok_nonterminal dict status resp m) /\
  (forall max_wait fuel start mr st t,
     _monitor_task_completion dict status delay max_wait fuel 0 start start mr
       = Returned (TaskCompleted st) t ->
     exists j d, mr j = M200 d /\ status d = st /\ terminal st = true /\
       forall m, m < j -> mon_poll_terminal dict status mr m = false) /\
  (forall max_wait f k start now mr d,
     (now - start < max_wait * 1000)%Z -> mr k = M200 d -> terminal (status d) = false ->
     _monitor_task_completion dict status delay max_wait (S f) k start now mr
       = _monitor_task_completion dict status delay max_wait f (S k) start (now + 5000 + delay k) mr) /\
  (forall max_wait f k start now mr,
     (max_wait * 1000 <= now - start)%Z ->
     _monitor_task_completion dict status delay max_wait (S f) k start now mr
       = Returned MaxRecordingTime now).
Proof.
  repeat split.
  - intros task_id_at get ci fuel now tr d t H.
    destruct (wftc_returns_first dict status delay task_id_at get ci fuel 0 now tr d t H)
      as (j & _ & Hg & Ht & Hm & _).
    exists j. repeat split; auto. intros m Hm'. apply Hm. lia.
  - intros task_id_at get ci fuel now j d Hj Hpre Hg Ht.
    apply (wftc_first_terminal_returns dict status delay task_id_at get ci fuel 0 j now d);
      auto; try lia. intros m Hm. apply Hpre. lia.
  - intros resp step steps cap fuel start now tl d tl' t H.
    destruct (wft_returns_first dict status delay resp step steps cap fuel 0 start now 0 tl d tl' t H)
      as (j & _ & Hr & Ht & Hm).
    exists j. repeat split; auto. intros m Hm'. apply Hm. lia.
  - intros resp step steps cap fuel start now tl j d Hj Hpre Hr Ht.
    apply (wft_first_terminal_returns dict status delay resp step steps cap fuel 0 j start now 0 tl d);
      auto; try lia. intros m Hm. apply Hpre. lia.
  - intros resp step steps cap fuel start now tl j Hj Hpre Hr.
    apply (wft_error_raises dict status delay resp step steps cap fuel 0 j start now 0 tl);
      auto; try lia. intros m Hm. apply Hpre. lia.
  - intros resp step steps cap fuel start now tl t H.
    destruct (wft_raised_first dict status delay resp step steps cap fuel 0 start now 0 tl t H)
      as (j & _ & Hr & Hm).
    exists j. split; auto. intros m Hm'. apply Hm. lia.
  - intros max_wait fuel start mr st t H.
    destruct (monitor_completed_first dict status delay max_wait fuel 0 start start mr st t H)
      as (j & d & _ & Hm & Hs & Ht & Hpre).
    exists j, d. repeat split; auto. intros m Hm'. apply Hpre. lia.
  - intros max_wait f k start now mr d Hlt Hm Ht. cbn [_monitor_task_completion].
    apply Z.ltb_lt in Hlt. rewrite Hlt, Hm, Ht. reflexivity.
  - intros max_wait f k start now mr Hge. cbn [_monitor_task_completion].
    replace (now - start <? max_wait * 1000)%Z with false by (symmetry; apply Z.ltb_ge; lia).
    reflexivity.
Qed.

(** C4 (as stated, refuted): [ProductExplorer.wait_for_task_completion] has
    no timeout. With every poll answering ['running'] and the default
    5-second interval, after 721 polls it is still polling, one hour and five
    seconds (3605000 ms) after it started. *)
Lemma wait_for_task_completion_has_no_timeout :
  snd (wait_for_task_completion (option string) (fun st => st) (fun _ => 0%Z) (fun _ => "t1")
         (fun _ _ => HOk (Some "running")) 5 721 0 0) = Polling 3605000%Z.
Proof. vm_compute. reflexivity. Qed.

(** C4 (amended): only [_monitor_task_completion] is bounded by its
    timeout: it leaves within [max_wait / 5 + 2] iterations. The other two
    task loops have no time bound: while no terminal status (and, for
    [_wait_for_task], no HTTP error) comes, they poll past any time [T]. *)
Theorem task_polling_timeouts
    (dict : Type) (status : dict -> option string) (delay : nat -> Z)
    (Hd : forall m, (0 <= delay m)%Z) :
  (forall max_wait start mr t,
     _monitor_task_completion dict status delay max_wait (S (S (Z.to_nat (max_wait / 5)))) 0
       start start mr <> Polling t) /\
  (forall task_id_at get check_interval,
     (0 < check_interval)%Z ->
     (forall m, wftc_poll_terminal dict status task_id_at get m = false) ->
     forall T, exists fuel tr t,
       wait_for_task_completion dict status delay task_id_at get check_interval fuel 0 0
         = (tr, Polling t) /\ (T < t)%Z) /\
  (forall resp step steps cap,
     (forall m, wft_ok_nonterminal dict status resp m) ->
     forall T, exists fuel t,
       _wait_for_task dict status delay resp step steps cap fuel 0 0 0 0 [] = Polling t /\ (T < t)%Z).
Proof.
  split; [|split].
  - intros max_wait start mr t. apply monitor_bounded; auto.
    pose proof (Z.div_mod max_wait 5) as Hdm. pose proof (Z.mod_pos_bound max_wait 5) as Hb.
    destruct (Z_lt_le_dec (max_wait / 5) 0) as [Hn|Hp].
    + rewrite Nat2Z.inj_succ. lia.
    + rewrite Nat2Z.inj_succ, Z2Nat.id by lia. lia.
  - intros task_id_at get ci Hci Hnever T. exists (S (Z.to_nat T)).
    destruct (wftc_no_terminal_polls dict status delay task_id_at get ci (S (Z.to_nat T)) 0 0)
      as (tr & t & R & Ht); [lia | exact Hd | intros; apply Hnever |].
    exists tr, t. split; [exact R | nia].
  - intros resp step steps cap Hnever T. exists (S (Z.to_nat T)).
    destruct (wft_no_terminal_polls dict status delay resp step steps cap (S (Z.to_nat T)) 0 0 0 0 [])
      as (t & R & Ht); [exact Hd | intros; apply Hnever |].
    exists t. split; [exact R | lia].
Qed.

End PollProofs.

Module InboxProofs.
Import Poll Inbox.

Section Bounds.
Variable msg : Type.
Variable delay : nat -> Z.
Variable list_at : nat -> listing msg.
Hypothesis Hd : forall k, (0 <= delay k)%Z.
Hypothesis Hempty : forall k, list_at k = LOk [].

Lemma verification_loop_empty_inbox (handle_message : nat -> msg -> verification)
      (timeout : Z) (fuel k : nat) (start now : Z) :
    (start + timeout * 1000 - now < 3000 * Z.of_nat fuel)%Z ->
    exists t, verification_loop msg delay list_at handle_message timeout (S fuel) k start now
              = Returned None t /\ (start + timeout * 1000 <= t)%Z.
  Proof.
    revert k now. induction fuel as [|f IH]; intros k now Hb.
    - cbn [verification_loop].
      destruct (now - start <? timeout * 1000)%Z eqn:C.
      + apply Z.ltb_lt in C. lia.
      + apply Z.ltb_ge in C. exists now. split; [reflexivity | lia].
    - cbn [verification_loop].
      destruct (now - start <? timeout * 1000)%Z eqn:C.
      + rewrite Hempty. apply IH. specialize (Hd k). lia.
      + apply Z.ltb_ge in C. exists now. split; [reflexivity | lia].
  Qed.

Lemma monitor_email_empty_inbox (llm_at : nat -> option string)
      (timeout : Z) (fuel k : nat) (start now : Z) :
    (start + timeout * 1000 - now < 3000 * Z.of_nat fuel)%Z ->
    exists t, _monitor_verification_email msg delay list_at llm_at timeout (S fuel) k start now
              = Returned None t /\ (start + timeout * 1000 <= t)%Z.
  Proof.
    revert k now. induction fuel as [|f IH]; intros k now Hb.
    - cbn [_monitor_verification_email].
      destruct (now - start <? timeout * 1000)%Z eqn:C.
      + apply Z.ltb_lt in C. lia.
      + apply Z.ltb_ge in C. exists now. split; [reflexivity | lia].
    - cbn [_monitor_verification_email].
      destruct (now - start <? timeout * 1000)%Z eqn:C.
      + rewrite Hempty. apply IH. specialize (Hd k). lia.
      + apply Z.ltb_ge in C. exists now. split; [reflexivity | lia].
  Qed.
End Bounds.

Lemma budget_covered (timeout : Z) :
  (timeout * 1000 < 3000 * Z.of_nat (S (Z.to_nat (timeout / 3))))%Z.
Proof.
  pose proof (Z.div_mod timeout 3) as Hdm. pose proof (Z.mod_pos_bound timeout 3) as Hb.
  rewrite Nat2Z.inj_succ.
  destruct (Z_lt_le_dec (timeout / 3) 0) as [Hn|Hp].
  - lia.
  - rewrite Z2Nat.id by lia. lia.
Qed.

(** C6: when no message arrives, both inbox waits leave their loop once
    [timeout] seconds have passed and return [None] (no exception), within
    [timeout / 3 + 2] iterations of the three-second poll. *)
Theorem verification_wait_timeout_returns_none
    (msg : Type) (delay : nat -> Z) (list_at : nat -> listing msg)
    (handle_message : nat -> msg -> verification) (llm_at : nat -> option string)
    (timeout start : Z)
    (Hd : forall k, (0 <= delay k)%Z) (Hempty : forall k, list_at k = LOk []) :
  let fuel := S (S (Z.to_nat (timeout / 3))) in
  (exists t, get_verification_data msg delay list_at handle_message true timeout fuel start
             = Returned None t /\ (start + timeout * 1000 <= t)%Z) /\
  (exists t, _monitor_verification_email msg delay list_at llm_at timeout fuel 0 start start
             = Returned None t /\ (start + timeout * 1000 <= t)%Z).
Proof.
  intros fuel. pose proof (budget_covered timeout) as Hb. split.
  - unfold get_verification_data. apply verification_loop_empty_inbox; auto. lia.
  - apply monitor_email_empty_inbox; auto. lia.
Qed.

End InboxProofs.

Module CreateSessionProofs.
Import CreateSession.

Section CS.
Variable dict : Type.
Variable post : nat -> post_result dict.

Definition rate_limited_events (attempts : list nat) : list event :=
    flat_map (fun a => [Post a; Sleep ((Z.of_nat a + 1) * 15)%Z]) attempts.

Lemma attempts_skip_rate_limited (k : nat) :
    forall s n, k <= n -> (forall a, s <= a < s + k -> post a = PostHttpErr 429) ->
    attempts_loop dict post (seq s n)
      = let '(tr, r) := attempts_loop dict post (seq (s + k) (n - k)) in
        ((rate_limited_events (seq s k) ++ tr)%list, r).
  Proof.
    induction k as [|k IH]; intros s n Hk H429.
    - rewrite Nat.add_0_r, Nat.sub_0_r. cbn.
      destruct (attempts_loop dict post (seq s n)); reflexivity.
    - destruct n as [|n]; [lia|]. cbn [seq attempts_loop].
      rewrite (H429 s) by lia. cbn [Z.eqb Pos.eqb].
      rewrite (IH (S s) n) by (lia || (intros a Ha; apply H429; lia)).
      replace (S s + k) with (s + S k) by lia. cbn [Nat.sub].
      destruct (attempts_loop dict post (seq (s + S k) (n - k))). reflexivity.
  Qed.
End CS.

(** C5: [create_session] retries only on HTTP 429, sleeping
    [(attempt + 1) * 15] seconds after each, for at most [retries] posts;
    if every post is rate-limited it raises "Failed to create session after
    all retries"; any other HTTP error or exception stops it at once. *)
Theorem create_session_retry_policy (dict : Type) (post : nat -> post_result dict) (retries : nat) :
  ((forall a, a < retries -> post a = PostHttpErr 429%Z) ->
     create_session dict post retries
       = (rate_limited_events (seq 0 retries), Raise RetriesExhausted)) /\
  (forall k code, k < retries -> (forall a, a < k -> post a = PostHttpErr 429%Z) ->
     post k = PostHttpErr code -> code <> 429%Z ->
     create_session dict post retries
       = (rate_limited_events (seq 0 k) ++ [Post k], Raise (HttpError code))%list) /\
  (forall k, k < retries -> (forall a, a < k -> post a = PostHttpErr 429%Z) ->
     post k = PostOtherErr ->
     create_session dict post retries
       = (rate_limited_events (seq 0 k) ++ [Post k], Raise OtherError)%list) /\
  (forall k d, k < retries -> (forall a, a < k -> post a = PostHttpErr 429%Z) ->
     post k = PostOk d ->
     create_session dict post retries = (rate_limited_events (seq 0 k) ++ [Post k], Created d)%list) /\
  create_session dict (fun _ => PostHttpErr 429%Z) default_retries
    = ([Post 0; Sleep 15; Post 1; Sleep 30; Post 2; Sleep 45], Raise RetriesExhausted).
Proof.
  unfold create_session. repeat split.
  - intros H. rewrite (attempts_skip_rate_limited dict post retries 0 retries) by
      (lia || (intros a Ha; apply H; lia)).
    rewrite Nat.sub_diag. cbn. now rewrite app_nil_r.
  - intros k code Hk H429 Hp Hc.
    rewrite (attempts_skip_rate_limited dict post k 0 retries) by (lia || (intros a Ha; apply H429; lia)).
    destruct (retries - k) as [|n] eqn:E; [lia|]. cbn [seq attempts_loop]. rewrite Nat.add_0_l, Hp.
    apply Z.eqb_neq in Hc. rewrite Hc. reflexivity.
  - intros k Hk H429 Hp.
    rewrite (attempts_skip_rate_limited dict post k 0 retries) by (lia || (intros a Ha; apply H429; lia)).
    destruct (retries - k) as [|n] eqn:E; [lia|]. cbn [seq attempts_loop]. rewrite Nat.add_0_l, Hp.
    reflexivity.
  - intros k d Hk H429 Hp.
    rewrite (attempts_skip_rate_limited dict post k 0 retries) by (lia || (intros a Ha; apply H429; lia)).
    destruct (retries - k) as [|n] eqn:E; [lia|]. cbn [seq attempts_loop]. rewrite Nat.add_0_l, Hp.
    reflexivity.
Qed.

End CreateSessionProofs.

Module ExecuteAllProofs.
Import ExecuteAll.

Section EA.
Variable course dict inbox : Type.
Variable create_inbox : nat -> option inbox.
Variable generate_password : nat -> string.
Variable execute_course : course -> nat -> inbox -> string -> course_outcome dict.

Lemma prepare_spec (demos : list course) :
    forall s, (forall i, i < List.length demos -> exists ib, create_inbox (s + i) = Some ib) ->
    exists tasks, prepare course dict inbox create_inbox generate_password execute_course s demos
                  = Some tasks /\ List.length tasks = List.length demos /\
      forall i c, nth_error demos i = Some c ->
        exists ib t, create_inbox (s + i) = Some ib /\ nth_error tasks i = Some t /\
          t tt = execute_course c (s + i) ib (generate_password (s + i)).
  Proof.
    induction demos as [|c rest IH]; intros s H.
    - exists []. split; [reflexivity|]. split; [reflexivity|]. intros [|i] c' Hc; discriminate.
    - destruct (H 0) as [ib Hib]; [cbn; lia|]. rewrite Nat.add_0_r in Hib.
      destruct (IH (S s)) as (ts & Hts & Hlen & Hnth).
      { intros i Hi. replace (S s + i) with (s + S i) by lia. apply H. cbn. lia. }
      exists ((fun _ : unit => execute_course c s ib (generate_password s)) :: ts).
      cbn [prepare]. rewrite Hib, Hts. split; [reflexivity|]. split; [cbn; lia|].
      intros [|i] c' Hc; cbn in Hc.
      + injection Hc as <-. exists ib, (fun _ : unit => execute_course c s ib (generate_password s)).
        rewrite Nat.add_0_r. auto.
      + destruct (Hnth i c' Hc) as (ib' & t & Hi & Ht & Htt).
        replace (s + S i) with (S s + i) by lia. exists ib', t. auto.
  Qed.
End EA.

(** C7: when every course gets its inbox, [execute_all_courses] returns one
    entry per course, in course order; the entry of course [i] is whatever
    awaiting its workflow gave, its result or the exception it raised, so
    one course's exception neither propagates nor hides the others. *)
Theorem execute_all_courses_one_entry_per_course
    (course dict inbox : Type) (create_inbox : nat -> option inbox)
    (generate_password : nat -> string)
    (execute_course : course -> nat -> inbox -> string -> course_outcome dict)
    (demos : list course)
    (Hinbox : forall i, i < List.length demos -> exists ib, create_inbox i = Some ib) :
  exists results,
    execute_all_courses course dict inbox create_inbox generate_password execute_course demos
      = Some results /\
    List.length results = List.length demos /\
    forall i c, nth_error demos i = Some c ->
      exists ib, create_inbox i = Some ib /\
        nth_error results i = Some (execute_course c i ib (generate_password i)).
Proof.
  destruct (prepare_spec course dict inbox create_inbox generate_password execute_course demos 0 Hinbox)
    as (tasks & Hp & Hlen & Hnth).
  exists (gather_return_exceptions dict tasks). unfold execute_all_courses. rewrite Hp.
  split; [reflexivity|]. split.
  - unfold gather_return_exceptions. now rewrite length_map.
  - intros i c Hc. destruct (Hnth i c Hc) as (ib & t & Hi & Ht & Htt).
    exists ib. split; [exact Hi|]. unfold gather_return_exceptions.
    rewrite nth_error_map, Ht. cbn. now rewrite Htt.
Qed.

End ExecuteAllProofs.

Module PasswordProofs.
Import Password.

Lemma length_string_of_list_ascii (l : list ascii) :
  String.length (string_of_list_ascii l) = List.length l.
Proof. induction l as [|c l IH]; cbn; [reflexivity | now rewrite IH]. Qed.

Lemma get_in_string (n : nat) (s : string) (c : ascii) :
  String.get n s = Some c -> In c (list_ascii_of_string s).
Proof.
  revert n. induction s as [|x s IH]; intros n H; [destruct n; discriminate|].
  destruct n as [|n]; cbn in H.
  - injection H as <-. now left.
  - right. now apply (IH n).
Qed.

Lemma get_in_range (n : nat) (s : string) :
  n < String.length s -> exists c, String.get n s = Some c.
Proof.
  revert n. induction s as [|x s IH]; intros n H; cbn in H; [lia|].
  destruct n as [|n]; cbn; [eauto | apply IH; lia].
Qed.

(** C9: every generated password has 16 characters, all from [chars]; one
    of them has no character of ['!@#$%'], so the masking of typed text
    leaves it as it is and the script line for typing it shows it. *)
Theorem generated_password_may_be_unmasked (draw : nat -> nat)
    (Hdraw : forall j, draw j < String.length chars) :
  String.length (_generate_password draw) = 16 /\
  (forall c, In c (list_ascii_of_string (_generate_password draw)) ->
             In c (list_ascii_of_string chars)) /\
  exists draw', (forall j, draw' j < String.length chars) /\
    has_special (_generate_password draw') = false /\
    display_text (_generate_password draw') = _generate_password draw' /\
    substr_of ("`" ++ _generate_password draw' ++ "`") (input_action_line "0" (_generate_password draw')).
Proof.
  split; [|split].
  - unfold _generate_password. rewrite length_string_of_list_ascii, length_map. reflexivity.
  - intros c Hc. unfold _generate_password in Hc.
    rewrite list_ascii_of_string_of_list_ascii in Hc.
    apply in_map_iff in Hc. destruct Hc as (j & <- & _).
    destruct (get_in_range (draw j) chars (Hdraw j)) as [c Hget].
    unfold choice. rewrite Hget. now apply (get_in_string (draw j)).
  - exists (fun _ => 0). split; [intros; cbn; lia|].
    split; [vm_compute; reflexivity|]. split; [vm_compute; reflexivity|].
    exists "- ⌨️  **Type** into element #0: ", (String "010"%char "").
    vm_compute. reflexivity.
Qed.

End PasswordProofs.

Module FormatTimeProofs.
Import FormatTime QArith Qround.

Lemma Qfloor_div60 (n : Z) (d : positive) : Qfloor ((n # d) / 60) = (n / Z.pos d / 60)%Z.
Proof.
  unfold Qdiv, Qmult, Qinv, Qfloor. cbn [Qnum Qden].
  rewrite Pos2Z.inj_mul, Z.mul_1_r, Z.div_div; lia.
Qed.

Lemma Qfloor_sub_60 (n : Z) (d : positive) (m : Z) :
  Qfloor ((n # d) - 60 * inject_Z m) = (n / Z.pos d - 60 * m)%Z.
Proof.
  unfold Qminus, Qplus, Qopp, Qmult, inject_Z, Qfloor. cbn [Qnum Qden].
  rewrite !Pos.mul_1_r, Z.mul_1_r.
  rewrite Z.div_add by lia. ring.
Qed.

Local Open Scope nat_scope.

Lemma digits_aux_length_ge (f m : nat) (acc : string) :
  String.length acc <= String.length (digits_aux f m acc).
Proof.
  revert m acc. induction f as [|f IH]; intros m acc; cbn [digits_aux]; [lia|].
  destruct (Nat.ltb m 10); cbn; [lia|].
  specialize (IH (m / 10) (String (digit_char (m mod 10)) acc)). cbn in IH. lia.
Qed.

Lemma digits_aux_length_gt (f m : nat) (acc : string) :
  S (String.length acc) <= String.length (digits_aux (S f) m acc).
Proof.
  cbn [digits_aux]. destruct (Nat.ltb m 10); cbn; [lia|].
  pose proof (digits_aux_length_ge f (m / 10) (String (digit_char (m mod 10)) acc)). cbn in *. lia.
Qed.

Lemma str_of_nat_one (n : nat) : n < 10 -> str_of_nat n = String (digit_char n) "".
Proof.
  intros H. unfold str_of_nat. cbn [digits_aux].
  replace (Nat.ltb n 10) with true by (symmetry; now apply Nat.ltb_lt).
  now rewrite Nat.mod_small.
Qed.

Lemma str_of_nat_two (n : nat) : 10 <= n < 100 ->
  str_of_nat n = String (digit_char (n / 10)) (String (digit_char (n mod 10)) "").
Proof.
  intros H. unfold str_of_nat. cbn [digits_aux].
  replace (Nat.ltb n 10) with false by (symmetry; apply Nat.ltb_ge; lia).
  destruct n as [|n']; [lia|]. cbn [digits_aux].
  assert (Hq : S n' / 10 < 10) by (apply Nat.Div0.div_lt_upper_bound; lia).
  replace (Nat.ltb (S n' / 10) 10) with true by (symmetry; now apply Nat.ltb_lt).
  now rewrite (Nat.mod_small (S n' / 10)).
Qed.

Lemma str_of_nat_long (n : nat) : 100 <= n -> 3 <= String.length (str_of_nat n).
Proof.
  intros H. unfold str_of_nat. cbn [digits_aux].
  replace (Nat.ltb n 10) with false by (symmetry; apply Nat.ltb_ge; lia).
  destruct n as [|n']; [lia|].
  cbn [digits_aux].
  assert (Hq : 10 <= S n' / 10) by (apply Nat.div_le_lower_bound; lia).
  replace (Nat.ltb (S n' / 10) 10) with false by (symmetry; apply Nat.ltb_ge; lia).
  destruct n' as [|n'']; [lia|].
  pose proof (digits_aux_length_gt n'' (S (S n'') / 10 / 10)
                (String (digit_char (S (S n'') / 10 mod 10))
                   (String (digit_char (S (S n'') mod 10)) ""))).
  cbn in *. lia.
Qed.

Lemma str_length_app (a b : string) : String.length (a ++ b) = String.length a + String.length b.
Proof. induction a as [|x a IH]; cbn; [reflexivity | now rewrite IH]. Qed.

Lemma length_list_ascii_of_string (s : string) :
  List.length (list_ascii_of_string s) = String.length s.
Proof. induction s as [|x s IH]; cbn; [reflexivity | now rewrite IH]. Qed.

Lemma fmt_02d_two_digits (z : Z) : (0 <= z < 100)%Z ->
  exists a b, a < 10 /\ b < 10 /\ fmt_02d z = String (digit_char a) (String (digit_char b) "").
Proof.
  intros H. unfold fmt_02d, str_of_Z.
  replace (z <? 0)%Z with false by (symmetry; apply Z.ltb_ge; lia).
  destruct (Nat.lt_ge_cases (Z.to_nat z) 10) as [Hs|Hl].
  - rewrite str_of_nat_one by lia. exists 0, (Z.to_nat z). split; [lia|]. split; [lia|]. reflexivity.
  - rewrite str_of_nat_two by lia. exists (Z.to_nat z / 10), (Z.to_nat z mod 10).
    split; [apply Nat.Div0.div_lt_upper_bound; lia|]. split; [apply Nat.mod_upper_bound; lia|].
    reflexivity.
Qed.

Lemma fmt_02d_long (z : Z) : (100 <= z)%Z -> 3 <= String.length (fmt_02d z).
Proof.
  intros H. unfold fmt_02d, str_of_Z.
  replace (z <? 0)%Z with false by (symmetry; apply Z.ltb_ge; lia).
  rewrite str_length_app. pose proof (str_of_nat_long (Z.to_nat z)). lia.
Qed.

Lemma is_digit_digit_char (k : nat) : k < 10 -> is_digit (digit_char k) = true.
Proof.
  intros H. unfold is_digit, digit_char. rewrite nat_ascii_embedding by lia.
  apply andb_true_intro. split; apply Nat.leb_le; lia.
Qed.

Lemma is_mmss_long (s : string) : 6 <= String.length s -> is_mmss s = false.
Proof.
  intros H. unfold is_mmss. rewrite <- length_list_ascii_of_string in H.
  destruct (list_ascii_of_string s) as [|a [|b [|c [|d [|e [|f l]]]]]]; cbn in *; lia || reflexivity.
Qed.

Local Open Scope Q_scope.

Import Qpower Lqa.

Lemma Qred_inject_Z (z : Z) : Qred (inject_Z z) = inject_Z z.
Proof.
  unfold Qred, inject_Z. cbn [Qnum Qden].
  generalize (Z.ggcd_correct_divisors z 1) (Z.ggcd_gcd z 1).
  destruct (Z.ggcd z 1) as (g, (aa, bb)). cbn [fst snd].
  rewrite Z.gcd_1_r. intros (H1 & H2) ->. rewrite !Z.mul_1_l in *. now subst.
Qed.

Lemma fl_compat (x y : Q) : x == y -> fl x = fl y.
Proof. intros H. unfold fl. now rewrite (Qred_complete x y H). Qed.

Lemma fl_zero : fl 0 = 0.
Proof. reflexivity. Qed.

Lemma round_half_even_int (x : Q) (k : Z) : x == inject_Z k -> round_half_even x = k.
Proof.
  intros H. unfold round_half_even.
  rewrite (Qfloor_comp x (inject_Z k) H), Qfloor_Z.
  destruct (Qcompare_spec (x - inject_Z k) (1 # 2)) as [E|E|E]; [| reflexivity |].
  - exfalso. rewrite H in E. ring_simplify in E. discriminate E.
  - exfalso. rewrite H in E. ring_simplify in E. discriminate E.
Qed.

Lemma round_half_even_ge (x : Q) : x - 1 <= inject_Z (round_half_even x).
Proof.
  assert (Hf : x - 1 <= inject_Z (Qfloor x)).
  { pose proof (Qlt_floor x) as H. rewrite inject_Z_plus in H. apply Qlt_le_weak.
    apply (Qplus_lt_l _ _ 1). setoid_replace (x - 1 + 1) with x by ring. exact H. }
  unfold round_half_even.
  destruct (x - inject_Z (Qfloor x) ?= 1 # 2); [destruct (Z.even (Qfloor x))| |]; auto;
    rewrite inject_Z_plus; apply (Qle_trans _ _ _ Hf);
    rewrite <- (Qplus_0_r (inject_Z (Qfloor x))) at 1; apply Qplus_le_r; discriminate.
Qed.

Lemma pow2_pos (e : Z) : 0 < pow2 e.
Proof. apply Qpower_0_lt. reflexivity. Qed.

Lemma pow2_nonneg_exp (e : Z) : (0 <= e)%Z -> pow2 e == inject_Z (2 ^ e).
Proof. intros H. unfold pow2. symmetry. now apply Zpower_Qpower. Qed.

Lemma pow2_add (a b : Z) : pow2 (a + b) == pow2 a * pow2 b.
Proof. unfold pow2. apply Qpower_plus. discriminate. Qed.

Lemma floor_log2_le (n : Z) (d : positive) : (0 < n)%Z -> pow2 (floor_log2 n d) <= n # d.
Proof.
  intros Hn. unfold floor_log2.
  set (a := Z.log2 n). set (b := Z.log2 (Zpos d)).
  destruct (Qle_bool (pow2 (a - b)) (n # d)) eqn:E; [now apply Qle_bool_imp_le|].
  assert (Ha : (0 <= a)%Z) by apply Z.log2_nonneg.
  assert (Hb : (0 <= b)%Z) by apply Z.log2_nonneg.
  destruct (Z.log2_spec n Hn) as [Hna _]. fold a in Hna.
  destruct (Z.log2_spec (Zpos d) eq_refl) as [_ Hdb]. fold b in Hdb.
  assert (Hsplit : pow2 a == pow2 (a - b - 1) * pow2 (b + 1)).
  { rewrite <- pow2_add. now replace (a - b - 1 + (b + 1))%Z with a by ring. }
  rewrite Qmake_Qdiv. apply Qle_shift_div_l; [reflexivity|].
  apply (Qle_trans _ (pow2 (a - b - 1) * pow2 (b + 1))).
  - apply Qmult_le_l; [apply pow2_pos|].
    rewrite pow2_nonneg_exp by lia. rewrite <- Zle_Qle. rewrite Z.add_1_r. lia.
  - rewrite <- Hsplit, pow2_nonneg_exp by lia. rewrite <- Zle_Qle. exact Hna.
Qed.

Lemma pow2_neq0 (e : Z) : ~ pow2 e == 0.
Proof. intros E. pose proof (pow2_pos e) as H. rewrite E in H. discriminate H. Qed.

(** Integers below [2 ^ 53] are floats: rounding leaves them unchanged. *)
Lemma fl_int (z : Z) : (0 <= z < 2 ^ 53)%Z -> fl (inject_Z z) == inject_Z z.
Proof.
  intros H. unfold fl. rewrite Qred_inject_Z. destruct z as [|p|p]; [reflexivity| |lia].
  cbn [Qnum inject_Z]. unfold round_pos. cbn [Qnum Qden].
  assert (Hl : floor_log2 (Zpos p) 1 = Z.log2 (Zpos p)).
  { unfold floor_log2. change (Z.log2 (Zpos 1)) with 0%Z. rewrite Z.sub_0_r.
    replace (Qle_bool (pow2 (Z.log2 (Zpos p))) (Zpos p # 1)) with true; [reflexivity|].
    symmetry. apply Qle_bool_iff. rewrite pow2_nonneg_exp by apply Z.log2_nonneg.
    change (Zpos p # 1) with (inject_Z (Zpos p)). rewrite <- Zle_Qle. apply Z.log2_spec. lia. }
  change (Qnum (inject_Z (Zpos p))) with (Zpos p). change (Qden (inject_Z (Zpos p))) with 1%positive.
  rewrite Hl.
  assert (Hlt : (Z.log2 (Zpos p) < 53)%Z) by (apply Z.log2_lt_pow2; lia).
  pose proof (Z.log2_nonneg (Zpos p)) as Hnn.
  set (k := (52 - Z.log2 (Zpos p))%Z).
  replace (Z.max (Z.log2 (Zpos p) - 52) (-1074)) with (- k)%Z by lia.
  assert (HP : pow2 (- k) * inject_Z (2 ^ k) == 1).
  { rewrite <- pow2_nonneg_exp by lia. rewrite <- pow2_add. now replace (- k + k)%Z with 0%Z by ring. }
  rewrite (round_half_even_int _ (Zpos p * 2 ^ k)).
  - rewrite inject_Z_mult, <- Qmult_assoc, (Qmult_comm (inject_Z (2 ^ k))), HP.
    change (Zpos p # 1) with (inject_Z (Zpos p)). ring.
  - rewrite inject_Z_mult. change (Zpos p # 1) with (inject_Z (Zpos p)).
    transitivity ((inject_Z (Zpos p) * (pow2 (- k) * inject_Z (2 ^ k))) / pow2 (- k)).
    + rewrite HP, Qmult_1_r. reflexivity.
    + field. apply pow2_neq0.
Qed.

(** Rounding loses less than half of a value of at least 1. *)
Lemma fl_ge_half (x : Q) : 1 <= x -> x / 2 <= fl x.
Proof.
  intros Hx. unfold fl. pose proof (Qred_correct x) as Hr.
  destruct (Qred x) as [n d].
  rewrite <- Hr in Hx |- *.
  assert (Hn : (0 < n)%Z) by (unfold Qle in Hx; cbn in Hx; lia).
  destruct n as [|p|p]; try lia. cbn [Qnum].
  set (y := Zpos p # d).
  unfold round_pos. cbn [Qnum Qden].
  pose proof (floor_log2_le (Zpos p) d Hn) as Hl. fold y in Hl, Hx.
  set (l := floor_log2 (Zpos p) d) in *.
  set (e := Z.max (l - 52) (-1074)).
  assert (HP : pow2 e * 2 <= y).
  { unfold e. destruct (Z.max_spec (l - 52) (-1074)) as [[_ He]|[_ He]]; rewrite He.
    - assert (H1 : pow2 (-1074) <= 1 # 2) by (apply Qle_bool_imp_le; vm_compute; reflexivity).
      lra.
    - assert (Hs : pow2 l == pow2 (l - 52) * pow2 52).
      { rewrite <- pow2_add. now replace (l - 52 + 52)%Z with l by ring. }
      assert (H52 : pow2 52 == 4503599627370496) by reflexivity.
      rewrite H52 in Hs. pose proof (pow2_pos (l - 52)). lra. }
  apply (Qle_trans _ ((y / pow2 e - 1) * pow2 e)).
  - setoid_replace ((y / pow2 e - 1) * pow2 e) with (y - pow2 e) by (field; apply pow2_neq0).
    apply Qle_shift_div_r; [reflexivity|]. lra.
  - apply Qmult_le_compat_r; [apply round_half_even_ge | apply Qlt_le_weak, pow2_pos].
Qed.

Lemma py_int_nonneg (x : Q) : 0 <= x -> py_int x = Qfloor x.
Proof.
  destruct x as [a b]. intros H. unfold Qle in H. cbn in H.
  unfold py_int, Qfloor. cbn [Qnum Qden]. apply Z.quot_div_nonneg; lia.
Qed.

Lemma py_int_Z (z : Z) : py_int (inject_Z z) = z.
Proof. unfold py_int. cbn [Qnum Qden inject_Z]. apply Z.quot_1_r. Qed.

(** [fmod(s, 60)] for [s >= 0] is [s] minus 60 times [floor(s / 60)]; it
    lies in [[0, 60)] and its floor is [floor(s) mod 60]. *)
Lemma fmod_60 (n : Z) (d : positive) : (0 <= n)%Z ->
  fmod (n # d) 60 = (n # d) - 60 * inject_Z (n / Zpos d / 60) /\
  0 <= fmod (n # d) 60 /\ fmod (n # d) 60 < 60 /\
  Qfloor (fmod (n # d) 60) = (n / Zpos d mod 60)%Z.
Proof.
  intros Hn.
  assert (Hk : py_int ((n # d) / 60) = (n / Zpos d / 60)%Z).
  { unfold py_int, Qdiv, Qmult, Qinv. cbn [Qnum Qden].
    rewrite Z.quot_div_nonneg by lia. rewrite Pos2Z.inj_mul, Z.mul_1_r, Z.div_div; lia. }
  assert (E : fmod (n # d) 60 = (n # d) - 60 * inject_Z (n / Zpos d / 60)).
  { unfold fmod. now rewrite Hk. }
  rewrite E. split; [reflexivity|].
  set (q := (n / Zpos d)%Z).
  assert (Hq1 : inject_Z q <= n # d) by exact (Qfloor_le (n # d)).
  assert (Hq2 : n # d < inject_Z q + 1).
  { pose proof (Qlt_floor (n # d)) as H. now rewrite inject_Z_plus in H. }
  assert (Hdm : inject_Z q == 60 * inject_Z (q / 60) + inject_Z (q mod 60)).
  { change 60 with (inject_Z 60). rewrite <- inject_Z_mult, <- inject_Z_plus.
    apply inject_Z_injective. apply Z.div_mod. discriminate. }
  pose proof (Z.mod_pos_bound q 60 eq_refl) as [Hr1 Hr2].
  assert (Hr3 : (q mod 60 + 1 <= 60)%Z) by lia.
  rewrite Zle_Qle in Hr1, Hr3. rewrite inject_Z_plus in Hr3.
  change (inject_Z 0) with 0 in Hr1. change (inject_Z 60) with 60 in Hr3.
  change (inject_Z 1) with 1 in Hr3.
  repeat split; [lra|lra|].
  - rewrite Qfloor_sub_60. fold q. rewrite Z.mod_eq by discriminate. ring.
Qed.

Lemma Qltb_nonneg (x : Q) : 0 <= x -> Qltb x 0 = false.
Proof.
  intros H. unfold Qltb. destruct (Qcompare_spec x 0) as [E|E|E]; [reflexivity| |reflexivity].
  exfalso. lra.
Qed.

(** For a non-negative remainder and a positive divisor the sign
    correction of [_float_div_mod] is not taken. *)
Lemma div_mod_no_correction (m div other : Q) : 0 <= m ->
  (if Qeq_bool m 0 then div else if Bool.eqb (Qltb 60 0) (Qltb m 0) then div else other) = div.
Proof.
  intros H. destruct (Qeq_bool m 0); [reflexivity|]. rewrite (Qltb_nonneg m H). reflexivity.
Qed.

(** [int(s % 60)] is [floor(s) mod 60] for every [s >= 0]. *)
Lemma float_rem_60 (s : Q) : 0 <= s -> py_int (float_rem s 60) = (Qfloor s mod 60)%Z.
Proof.
  destruct s as [n d]. intros Hs.
  assert (Hn : (0 <= n)%Z) by (unfold Qle in Hs; cbn in Hs; lia).
  destruct (fmod_60 n d Hn) as (_ & H0 & _ & Hf).
  change (Qfloor (n # d)) with (n / Zpos d)%Z. rewrite <- Hf.
  unfold float_rem. cbv zeta.
  destruct (Qeq_bool (fmod (n # d) 60) 0) eqn:E.
  - apply Qeq_bool_iff in E. rewrite (Qfloor_comp _ _ E). reflexivity.
  - rewrite (Qltb_nonneg _ H0). cbn [Bool.eqb]. now apply py_int_nonneg.
Qed.

(** Below [2 ^ 53], [int(s // 60)] is [floor(s / 60)]: [s - fmod(s, 60)]
    is an integer below [2 ^ 53], so the subtraction and the division by
    60 are exact. *)
Lemma float_floor_div_60_exact (s : Q) : 0 <= s -> s < inject_Z (2 ^ 53) ->
  py_int (float_floor_div s 60) = Qfloor (s / 60).
Proof.
  destruct s as [n d]. intros Hs Hb.
  assert (Hn : (0 <= n)%Z) by (unfold Qle in Hs; cbn in Hs; lia).
  rewrite Qfloor_div60.
  destruct (fmod_60 n d Hn) as (Em & H0 & _ & _).
  set (k := (n / Zpos d / 60)%Z) in *.
  assert (Hq : (n / Zpos d < 2 ^ 53)%Z).
  { rewrite Zlt_Qlt. apply (Qle_lt_trans _ (n # d)); [exact (Qfloor_le (n # d)) | exact Hb]. }
  assert (Hk0 : (0 <= k)%Z) by (apply Z.div_pos; [apply Z.div_pos|]; lia).
  assert (Hk60 : (60 * k <= n / Zpos d)%Z) by (apply Z.mul_div_le; lia).
  assert (Hsub : (n # d) - fmod (n # d) 60 == inject_Z (60 * k)).
  { rewrite Em, inject_Z_mult. ring. }
  assert (H1 : fl ((n # d) - fmod (n # d) 60) / 60 == inject_Z k).
  { rewrite (fl_compat _ _ Hsub), fl_int by lia. rewrite inject_Z_mult. field. }
  assert (H2 : fl (fl ((n # d) - fmod (n # d) 60) / 60) == inject_Z k).
  { rewrite (fl_compat _ _ H1). apply fl_int. lia. }
  unfold float_floor_div. cbv zeta.
  rewrite (div_mod_no_correction _ _ _ H0).
  set (D := fl (fl ((n # d) - fmod (n # d) 60) / 60)) in *.
  destruct (Qeq_bool D 0) eqn:EZ.
  - apply Qeq_bool_iff in EZ.
    assert (Hk : inject_Z k == inject_Z 0) by (rewrite <- H2, EZ; reflexivity).
    apply (proj1 (inject_Z_injective k 0)) in Hk. now rewrite Hk.
  - rewrite (Qfloor_comp _ _ H2), Qfloor_Z.
    replace (Qltb (1 # 2) (fl (D - inject_Z k))) with false.
    + apply py_int_Z.
    + rewrite (fl_compat _ 0); [reflexivity|]. rewrite H2. ring.
Qed.

(** From [2 ^ 53] on, [int(s // 60)] is at least 100: each rounding keeps
    at least half of a value of at least 1. *)
Lemma float_floor_div_60_large (s : Q) : inject_Z (2 ^ 53) <= s ->
  (100 <= py_int (float_floor_div s 60))%Z.
Proof.
  destruct s as [n d]. intros Hb.
  assert (E53 : inject_Z (2 ^ 53) == 9007199254740992) by reflexivity.
  rewrite E53 in Hb.
  assert (Hn : (0 <= n)%Z) by (unfold Qle in Hb; cbn in Hb; lia).
  destruct (fmod_60 n d Hn) as (_ & H0 & H60 & _).
  unfold float_floor_div. cbv zeta.
  rewrite (div_mod_no_correction _ _ _ H0).
  set (M := fmod (n # d) 60) in *. set (s := n # d) in *.
  assert (HT : 4503599627370466 <= fl (s - M)).
  { apply (Qle_trans _ ((s - M) / 2)); [|apply fl_ge_half; lra].
    apply Qle_shift_div_l; [reflexivity|]. lra. }
  set (T := fl (s - M)) in *.
  assert (HD : 37529996894753 <= fl (T / 60)).
  { apply (Qle_trans _ (T / 60 / 2)).
    - apply Qle_shift_div_l; [reflexivity|]. apply Qle_shift_div_l; [reflexivity|]. lra.
    - apply fl_ge_half. apply Qle_shift_div_l; [reflexivity|]. lra. }
  set (D := fl (T / 60)) in *.
  replace (Qeq_bool D 0) with false
    by (symmetry; apply not_true_iff_false; intros E; apply Qeq_bool_iff in E; lra).
  set (F := inject_Z (Qfloor D)).
  assert (HF : D - 1 <= F).
  { pose proof (Qlt_floor D) as H. rewrite inject_Z_plus in H. change (inject_Z 1) with 1 in H.
    unfold F. lra. }
  assert (HR : 200 <= (if Qltb (1 # 2) (fl (D - F)) then fl (F + 1) else F)).
  { destruct (Qltb (1 # 2) (fl (D - F))).
    - apply (Qle_trans _ ((F + 1) / 2)); [|apply fl_ge_half; lra].
      apply Qle_shift_div_l; [reflexivity|]. lra.
    - lra. }
  rewrite py_int_nonneg by lra.
  change 100%Z with (Qfloor 100). apply Qfloor_resp_le. lra.
Qed.

Lemma digits_aux_suffix (f m : nat) (acc : string) : exists p, digits_aux f m acc = p ++ acc.
Proof.
  revert m acc. induction f as [|f IH]; intros m acc; cbn [digits_aux]; [now exists ""|].
  destruct (Nat.ltb m 10); [now exists (String (digit_char (m mod 10)%nat) "")|].
  destruct (IH (m / 10)%nat (String (digit_char (m mod 10)%nat) acc)) as [p Hp].
  rewrite Hp. exists (p ++ String (digit_char (m mod 10)%nat) ""). now rewrite str_app_assoc.
Qed.

(** The last character of [f"{z:02d}"] is the last decimal digit of [z]. *)
Lemma fmt_02d_last (z : Z) : (0 <= z)%Z ->
  exists p, fmt_02d z = p ++ String (digit_char (Z.to_nat (z mod 10)%Z)) "".
Proof.
  intros Hz. unfold fmt_02d, str_of_Z.
  replace (z <? 0)%Z with false by (symmetry; apply Z.ltb_ge; lia).
  rewrite Z2Nat.inj_mod by lia. change (Z.to_nat 10) with 10%nat.
  unfold str_of_nat. cbn [digits_aux].
  set (n := Z.to_nat z). set (acc := String (digit_char (n mod 10)%nat) "").
  destruct (Nat.ltb n 10).
  - exists (repeat_char "0" (2 - String.length acc)%nat). reflexivity.
  - destruct (digits_aux_suffix n (n / 10)%nat acc) as [p Hp]. rewrite Hp.
    exists (repeat_char "0" (2 - String.length (p ++ acc))%nat ++ p). now rewrite str_app_assoc.
Qed.

Lemma str_app_inv_tail (a b y : string) : a ++ y = b ++ y -> a = b.
Proof.
  intros E. assert (Hl : String.length a = String.length b).
  { apply (f_equal String.length) in E. rewrite !str_length_app in E. lia. }
  revert b E Hl. induction a as [|x a IH]; intros [|x' b] E Hl; cbn in Hl; try discriminate.
  - reflexivity.
  - cbn in E. injection E as -> E. f_equal. apply IH; [exact E | lia].
Qed.

Lemma str_last_inj (a b : string) (c c' : ascii) : a ++ String c "" = b ++ String c' "" -> c = c'.
Proof.
  revert b. induction a as [|x a IH]; intros [|x' b] E; cbn in E.
  - now injection E.
  - injection E as _ E. destruct b; discriminate E.
  - injection E as _ E. destruct a; discriminate E.
  - injection E as _ E. exact (IH b E).
Qed.


(** C10 (amended): for [s >= 0], [_format_time s] is a minutes field, a
    colon and [floor(s) mod 60] zero-filled to two digits; below [2 ^ 53]
    the minutes field is [floor(s / 60)] zero-filled to two digits. The
    result has the shape [MM:SS] exactly when [s < 6000]. *)
Theorem format_time_fields_and_shape (s : Q) (Hs : 0 <= s) :
  (exists mins, _format_time s = fmt_02d mins ++ ":" ++ fmt_02d (Qfloor s mod 60)%Z) /\
  (s < inject_Z (2 ^ 53) ->
   _format_time s = fmt_02d (Qfloor (s / 60)) ++ ":" ++ fmt_02d (Qfloor s mod 60)%Z) /\
  (is_mmss (_format_time s) = true <-> s < 6000).
Proof.
  assert (Hform : _format_time s = fmt_02d (py_int (float_floor_div s 60)) ++ ":"
                                     ++ fmt_02d (Qfloor s mod 60)%Z).
  { unfold _format_time. cbv zeta. now rewrite (float_rem_60 s Hs). }
  split; [eexists; exact Hform|].
  destruct (Qlt_le_dec s (inject_Z (2 ^ 53))) as [Hlt|Hge].
  - rewrite (float_floor_div_60_exact s Hs Hlt) in Hform.
    split; [intros _; exact Hform|].
    rewrite Hform. destruct s as [n d].
    assert (Hn : (0 <= n)%Z) by (unfold Qle in Hs; cbn in Hs; lia).
    rewrite Qfloor_div60. cbn [Qfloor].
    set (q := (n / Z.pos d)%Z).
    assert (Hq : (0 <= q)%Z) by (apply Z.div_pos; lia).
    pose proof (Z.mod_pos_bound q 60) as Hm.
    destruct (fmt_02d_two_digits (q mod 60)) as (c & e & Hc & He & Hsec); [lia|].
    rewrite Hsec.
    assert (Hlt6 : (n # d) < 6000 <-> (q < 6000)%Z).
    { unfold Qlt. cbn [Qnum Qden]. rewrite Z.mul_1_r.
      pose proof (Z.div_mod n (Z.pos d)) as Hdm. pose proof (Z.mod_pos_bound n (Z.pos d)) as Hb.
      fold q in Hdm. split; intros H; nia. }
    rewrite Hlt6.
    destruct (Z_lt_le_dec (q / 60) 100) as [Hsmall|Hbig].
    + destruct (fmt_02d_two_digits (q / 60)) as (a & b & Ha & Hb & Hmin);
        [split; [apply Z.div_pos|]; lia|].
      rewrite Hmin. split; intros _; [|].
      * pose proof (Z.div_mod q 60). lia.
      * unfold is_mmss. cbn [list_ascii_of_string append].
        rewrite !is_digit_digit_char by assumption. reflexivity.
    + rewrite is_mmss_long.
      * split; intros H; [discriminate|]. pose proof (Z.div_mod q 60). lia.
      * rewrite !str_length_app. pose proof (fmt_02d_long (q / 60) Hbig).
        cbn [String.length]. lia.
  - split; [intros H; exfalso; exact (Qlt_not_le _ _ H Hge)|].
    assert (E53 : inject_Z (2 ^ 53) == 9007199254740992) by reflexivity.
    rewrite E53 in Hge.
    pose proof (float_floor_div_60_large s) as Hbig. rewrite E53 in Hbig. specialize (Hbig Hge).
    destruct s as [n d].
    assert (Hn : (0 <= n)%Z) by (unfold Qle in Hs; cbn in Hs; lia).
    assert (Hq : (0 <= Qfloor (n # d))%Z) by (cbn [Qfloor]; apply Z.div_pos; lia).
    destruct (fmt_02d_two_digits (Qfloor (n # d) mod 60)) as (c & e & _ & _ & Hsec);
      [pose proof (Z.mod_pos_bound (Qfloor (n # d)) 60 eq_refl); lia|].
    rewrite Hform, Hsec, is_mmss_long.
    + split; intros H; [discriminate|]. exfalso. lra.
    + rewrite !str_length_app. pose proof (fmt_02d_long _ Hbig). cbn [String.length]. lia.
Qed.

(** C10 (as stated, refuted): the minutes field is not [floor(s / 60)] for
    every float. The float 208457521693201728 (= 6514297552912554 * 2^5)
    has [floor(s / 60)] = 3474292028220028, but [s - fmod(s, 60)] rounds
    down to 208457521693201664, the quotient by 60 rounds to
    3474292028220027.5, and [int(s // 60)] is 3474292028220027. *)
Lemma format_time_minutes_off_above_2_53 :
  (208457521693201728 = 6514297552912554 * 2 ^ 5 /\ 6514297552912554 < 2 ^ 53)%Z /\
  0 <= inject_Z 208457521693201728 /\
  py_int (float_floor_div (inject_Z 208457521693201728) 60) = 3474292028220027%Z /\
  Qfloor (inject_Z 208457521693201728 / 60) = 3474292028220028%Z /\
  _format_time (inject_Z 208457521693201728) <>
    fmt_02d (Qfloor (inject_Z 208457521693201728 / 60)) ++ ":"
      ++ fmt_02d (Qfloor (inject_Z 208457521693201728) mod 60)%Z.
Proof.
  split; [split; reflexivity|].
  split; [apply Qle_bool_imp_le; vm_compute; reflexivity|].
  assert (Hm : py_int (float_floor_div (inject_Z 208457521693201728) 60) = 3474292028220027%Z)
    by (vm_compute; reflexivity).
  assert (Hq : Qfloor (inject_Z 208457521693201728 / 60) = 3474292028220028%Z)
    by (vm_compute; reflexivity).
  split; [exact Hm|]. split; [exact Hq|].
  unfold _format_time. cbv zeta. rewrite Hm, Hq.
  replace (py_int (float_rem (inject_Z 208457521693201728) 60))
    with (Qfloor (inject_Z 208457521693201728) mod 60)%Z by (vm_compute; reflexivity).
  intros E.
  destruct (fmt_02d_last 3474292028220027) as [p Hp]; [lia|].
  destruct (fmt_02d_last 3474292028220028) as [p' Hp']; [lia|].
  rewrite Hp, Hp' in E. apply str_app_inv_tail, str_last_inj in E.
  vm_compute in E. discriminate E.
Qed.

End FormatTimeProofs.

(** * Witnesses: each theorem with hypotheses, at a concrete input *)
Module Witnesses.
Import VideoComposer VideoComposerProofs Poll PollProofs Inbox InboxProofs
       ExecuteAll ExecuteAllProofs Password PasswordProofs.

Lemma build_overlay_filter_segment_clauses_witness :
  nth_error [mk_segment nat (Some 3) None (Some "a.mp4"); mk_segment nat None (Some 7) None] 1
    = Some (mk_segment nat None (Some 7) None) /\
  (let seg := mk_segment nat None (Some 7) None in
   let start := Nat.add (get_start nat 0 seg) 12 in
   let stop := Nat.add start (get_duration nat 5 seg) in
   let start_ms := Z.of_nat (start * 1000) in
   let f := _build_overlay_filter nat Nat.add str_of_nat (fun n => Z.of_nat (n * 1000)) 0 5
              [mk_segment nat (Some 3) None (Some "a.mp4"); seg] 12 true in
   substr_of ("[" ++ str_of_nat (1 + 2) ++ ":v]scale=320:180,setpts=PTS+" ++ str_of_nat start
                ++ "/TB[v" ++ str_of_nat 1 ++ "];") f /\
   substr_of ("[v" ++ str_of_nat 1 ++ "]overlay=x=W-w-20:y=20:enable='between(t,"
                ++ str_of_nat start ++ "," ++ str_of_nat stop ++ ")':eof_action=pass[tmp"
                ++ str_of_nat 1 ++ "];") f /\
   substr_of ("[" ++ str_of_nat (1 + 2) ++ ":a]atrim=duration=" ++ str_of_nat (get_duration nat 5 seg)
                ++ ",asetpts=PTS-STARTPTS,adelay=" ++ str_of_Z start_ms ++ "|"
                ++ str_of_Z start_ms ++ "[a" ++ str_of_nat 1 ++ "];") f).
Proof.
  split; [reflexivity|].
  exact (build_overlay_filter_segment_clauses nat Nat.add str_of_nat (fun n => Z.of_nat (n * 1000)) 0 5
           [mk_segment nat (Some 3) None (Some "a.mp4"); mk_segment nat None (Some 7) None] 12 true
           1 (mk_segment nat None (Some 7) None) eq_refl).
Defined.

Lemma wait_for_task_completion_follows_task_id_witness :
  let task_id_at := fun k => if Nat.ltb k 2 then "old" else "new" in
  let get := fun k id => if (id =? "new") && Nat.leb 3 k then HOk (Some "finished")
                         else HOk (Some "running") in
  wait_for_task_completion (option string) (fun st => st) (fun _ => 0%Z) task_id_at get 5 10 0 0
    = (["old"; "old"; "new"; "new"], Returned (Some "finished") 20000%Z) /\
  (forall j x, nth_error ["old"; "old"; "new"; "new"] j = Some x -> x = task_id_at j) /\
  (forall j x, 2 <= j -> nth_error ["old"; "old"; "new"; "new"] j = Some x -> x = "new") /\
  exists j, 2 <= j /\ get j "new" = HOk (Some "finished") /\ terminal (Some "finished") = true.
Proof.
  intros task_id_at get.
  assert (Hrun : wait_for_task_completion (option string) (fun st => st) (fun _ => 0%Z) task_id_at get
                   5 10 0 0 = (["old"; "old"; "new"; "new"], Returned (Some "finished") 20000%Z))
    by (vm_compute; reflexivity).
  split; [exact Hrun|].
  apply (wait_for_task_completion_follows_task_id (option string) (fun st => st) (fun _ => 0%Z)
           task_id_at get 5 10 0 2 "new" ["old"; "old"; "new"; "new"] (Some "finished") 20000%Z).
  - intros k Hk. unfold task_id_at. destruct (Nat.ltb k 2) eqn:E; [apply Nat.ltb_lt in E; lia|reflexivity].
  - exact Hrun.
  - cbn. lia.
Defined.

Lemma task_polling_timeouts_witness :
  (forall m : nat, (0 <= (fun _ : nat => 0%Z) m)%Z) /\
  (forall max_wait start mr t,
     _monitor_task_completion (option string) (fun st => st) (fun _ => 0%Z) max_wait
       (S (S (Z.to_nat (max_wait / 5)))) 0 start start mr <> Polling t) /\
  (forall task_id_at get check_interval,
     (0 < check_interval)%Z ->
     (forall m, wftc_poll_terminal (option string) (fun st => st) task_id_at get m = false) ->
     forall T, exists fuel tr t,
       wait_for_task_completion (option string) (fun st => st) (fun _ => 0%Z) task_id_at get
         check_interval fuel 0 0 = (tr, Polling t) /\ (T < t)%Z) /\
  (forall resp step steps cap,
     (forall m, wft_ok_nonterminal (option string) (fun st => st) resp m) ->
     forall T, exists fuel t,
       _wait_for_task (option string) (fun st => st) (fun _ => 0%Z) resp step steps cap fuel 0 0 0 0 []
         = Polling t /\ (T < t)%Z).
Proof.
  split; [intros; lia|].
  apply (task_polling_timeouts (option string) (fun st => st) (fun _ => 0%Z)). intros; lia.
Defined.

Lemma verification_wait_timeout_returns_none_witness :
  (forall k : nat, (fun _ : nat => @LOk unit []) k = LOk []) /\
  (exists t, get_verification_data unit (fun _ => 0%Z) (fun _ : nat => @LOk unit [])
               (fun _ _ => mk_verification "text" "") true 90 (S (S (Z.to_nat (90 / 3)))) 0
             = Returned None t /\ (0 + 90 * 1000 <= t)%Z) /\
  (exists t, _monitor_verification_email unit (fun _ => 0%Z) (fun _ : nat => @LOk unit [])
               (fun _ => None) 90 (S (S (Z.to_nat (90 / 3)))) 0 0 0
             = Returned None t /\ (0 + 90 * 1000 <= t)%Z).
Proof.
  split; [reflexivity|].
  exact (verification_wait_timeout_returns_none unit (fun _ => 0%Z) (fun _ : nat => @LOk unit [])
           (fun _ _ => mk_verification "text" "") (fun _ => None) 90 0
           (fun _ => Z.le_refl 0) (fun _ => eq_refl)).
Defined.

Lemma execute_all_courses_one_entry_per_course_witness :
  let execute_course := fun (c : nat) (i : nat) (ib : nat) (pw : string) =>
    if Nat.eqb c 1 then @CExc nat "boom" else CDict c in
  (forall i, i < 3 -> exists ib, (fun i : nat => Some i) i = Some ib) /\
  exists results,
    execute_all_courses nat nat nat (fun i => Some i) (fun _ => "pw") execute_course [0; 1; 2]
      = Some results /\
    List.length results = 3 /\
    forall i c, nth_error [0; 1; 2] i = Some c ->
      exists ib, (fun i : nat => Some i) i = Some ib /\
        nth_error results i = Some (execute_course c i ib "pw").
Proof.
  intros execute_course.
  assert (H : forall i, i < 3 -> exists ib, (fun i : nat => Some i) i = Some ib) by eauto.
  split; [exact H|].
  exact (execute_all_courses_one_entry_per_course nat nat nat (fun i => Some i) (fun _ => "pw")
           execute_course [0; 1; 2] H).
Defined.

Lemma generated_password_may_be_unmasked_witness :
  (forall j : nat, (fun _ : nat => 5) j < String.length chars) /\
  String.length (_generate_password (fun _ => 5)) = 16 /\
  (forall c, In c (list_ascii_of_string (_generate_password (fun _ => 5))) ->
             In c (list_ascii_of_string chars)) /\
  exists draw', (forall j, draw' j < String.length chars) /\
    has_special (_generate_password draw') = false /\
    display_text (_generate_password draw') = _generate_password draw' /\
    substr_of ("`" ++ _generate_password draw' ++ "`") (input_action_line "0" (_generate_password draw')).
Proof.
  assert (H : forall j : nat, (fun _ : nat => 5) j < String.length chars) by (intros; cbn; lia).
  split; [exact H|].
  exact (generated_password_may_be_unmasked (fun _ => 5) H).
Defined.

End Witnesses.

Module FormatTimeWitness.
Import FormatTime FormatTimeProofs QArith Qround.

Lemma format_time_fields_and_shape_witness :
  0 <= 6000 /\
  (exists mins, _format_time 6000 = fmt_02d mins ++ ":" ++ fmt_02d (Qfloor 6000 mod 60)%Z) /\
  (6000 < inject_Z (2 ^ 53) ->
   _format_time 6000 = fmt_02d (Qfloor (6000 / 60)) ++ ":" ++ fmt_02d (Qfloor 6000 mod 60)%Z) /\
  (is_mmss (_format_time 6000) = true <-> 6000 < 6000).
Proof.
  assert (H : 0 <= 6000) by (unfold Qle; cbn; lia).
  split; [exact H|].
  exact (format_time_fields_and_shape 6000 H).
Defined.

End FormatTimeWitness.

(** * Further properties of the code *)

(** ** Python [str] operations *)
Module PyStrProofs.
Import PyStr.

Lemma prefix_spec (t s : string) : String.prefix t s = true <-> exists q, s = t ++ q.
Proof.
  revert s; induction t as [|a t IH]; intros s.
  - split; [intros _; exists s; reflexivity | intros _; destruct s; reflexivity].
  - destruct s as [|b s]; cbn [String.prefix].
    + split; [discriminate | intros [q E]; discriminate].
    + destruct (ascii_dec a b) as [<-|Hne].
      * rewrite IH. split; intros [q E]; exists q; [now rewrite E | now injection E].
      * split; [discriminate | intros [q E]; injection E; intros; congruence].
Qed.

Lemma contains_spec (t s : string) : contains t s = true <-> substr_of t s.
Proof.
  induction s as [|c r IH]; cbn [contains]; rewrite orb_true_iff, prefix_spec.
  - split.
    + intros [[q E]|E]; [exists "", q; exact E | discriminate].
    + intros [p [q E]]. destruct p; [left; exists q; exact E | discriminate].
  - rewrite IH. split.
    + intros [[q E]|[p [q E]]].
      * exists "", q. exact E.
      * exists (String c p), q. simpl. now rewrite E.
    + intros [p [q E]]. destruct p as [|c' p].
      * left. exists q. exact E.
      * right. exists p, q. simpl in E. now injection E.
Qed.

(** The text before the first occurrence of [sep]. *)
Fixpoint before (sep s : string) : string :=
  match s with
  | "" => ""
  | String c r => if String.prefix sep s then "" else String c (before sep r)
  end.

Lemma split_go_hd (sep s cur : string) : hd "" (split_go sep s 0 cur) = cur ++ before sep s.
Proof.
  revert cur. induction s as [|c r IH]; intros cur; cbn [split_go before].
  - now rewrite str_app_nil_r.
  - destruct (String.prefix sep (String c r)); cbn [hd].
    + now rewrite str_app_nil_r.
    + rewrite IH, str_app_assoc. reflexivity.
Qed.

Lemma first_piece_before (sep s : string) : first_piece sep s = before sep s.
Proof. unfold first_piece, py_split. now rewrite split_go_hd. Qed.

Lemma before_spec (sep s : string) :
  exists t, s = before sep s ++ t /\ (t = "" \/ String.prefix sep t = true).
Proof.
  induction s as [|c r IH]; cbn [before].
  - exists "". split; [reflexivity | left; reflexivity].
  - destruct (String.prefix sep (String c r)) eqn:P.
    + exists (String c r). split; [reflexivity | right; exact P].
    + destruct IH as [t [E H]]. exists t. split; [simpl; now rewrite <- E | exact H].
Qed.

Lemma before_no_sep (sep s : string) : sep <> "" -> ~ substr_of sep (before sep s).
Proof.
  intros Hne. induction s as [|c r IH]; cbn [before].
  - intros [p [q E]]. destruct p; [destruct sep; [congruence | discriminate] | discriminate].
  - destruct (String.prefix sep (String c r)) eqn:P.
    + intros [p [q E]]. destruct p; [destruct sep; [congruence | discriminate] | discriminate].
    + intros [p [q E]]. destruct p as [|c' p].
      * destruct (before_spec sep r) as [t [Er _]].
        assert (String.prefix sep (String c r) = true) as P'.
        { apply prefix_spec. exists (q ++ t). rewrite Er. simpl in E.
          rewrite <- str_app_assoc, <- E. reflexivity. }
        congruence.
      * apply IH. exists p, q. simpl in E. now injection E.
Qed.

Lemma first_piece_no_sep (sep s : string) : sep <> "" -> ~ substr_of sep (first_piece sep s).
Proof. intros H. rewrite first_piece_before. now apply before_no_sep. Qed.

Lemma split_go_nonempty (sep s : string) (k : nat) (cur : string) : split_go sep s k cur <> [].
Proof.
  revert k cur. induction s as [|c r IH]; intros k cur; cbn [split_go]; [discriminate|].
  destruct k; [destruct (String.prefix sep (String c r)); [discriminate | apply IH] | apply IH].
Qed.

(** When [sep in s], [s.split(sep)[1]] exists. *)
Lemma split_second (sep s : string) : sep <> "" -> contains sep s = true ->
  exists x, nth_error (py_split sep s) 1 = Some x.
Proof.
  intros Hne. unfold py_split. generalize "" as cur.
  induction s as [|c r IH]; intros cur H; cbn [contains] in H.
  - destruct sep; [congruence | discriminate].
  - cbn [split_go]. destruct (String.prefix sep (String c r)).
    + destruct (split_go sep r (String.length sep - 1) "") as [|x l] eqn:E.
      * exfalso. eapply split_go_nonempty. exact E.
      * exists x. reflexivity.
    + apply IH. exact H.
Qed.

(** Every piece of [s.split(sep)] is a substring of [s]. *)
Lemma split_go_pieces (sep s : string) : forall k cur x,
  (0 < k -> cur = "")%nat -> In x (split_go sep s k cur) ->
  (exists y q, x = cur ++ y /\ s = y ++ q) \/ substr_of x s.
Proof.
  induction s as [|c r IH]; intros k cur x Hk Hx; cbn [split_go] in Hx.
  - destruct Hx as [<-|[]]. left. exists "", "". now rewrite str_app_nil_r.
  - destruct k as [|k].
    + destruct (String.prefix sep (String c r)).
      * destruct Hx as [<-|Hx].
        -- left. exists "", (String c r). now rewrite str_app_nil_r.
        -- right. destruct (IH _ "" x (fun _ => eq_refl) Hx) as [(y & q & -> & ->)|Hs].
           ++ exists (String c ""), q. reflexivity.
           ++ now apply (substr_app_l x (String c "") r).
      * destruct (IH 0 (cur ++ String c "") x (fun H => ltac:(lia)) Hx) as [(y & q & -> & ->)|Hs].
        -- left. exists (String c y), q. split; [now rewrite str_app_assoc | reflexivity].
        -- right. now apply (substr_app_l x (String c "") r).
    + rewrite (Hk ltac:(lia)) in Hx |- *.
      destruct (IH k "" x (fun _ => eq_refl) Hx) as [(y & q & -> & ->)|Hs].
      * right. exists (String c ""), q. reflexivity.
      * right. now apply (substr_app_l x (String c "") r).
Qed.

Lemma py_split_pieces (sep s x : string) : In x (py_split sep s) -> substr_of x s.
Proof.
  intros H. destruct (split_go_pieces sep s 0 "" x (fun H => ltac:(lia)) H)
    as [(y & q & -> & ->)|Hs]; [exists "", q; reflexivity | exact Hs].
Qed.

Lemma first_piece_substr (sep s : string) : substr_of (first_piece sep s) s.
Proof.
  rewrite first_piece_before. destruct (before_spec sep s) as [t [E _]].
  exists "", t. exact E.
Qed.

Lemma lstrip_suffix (sp : ascii -> bool) (s : string) : exists p, s = p ++ lstrip sp s.
Proof.
  induction s as [|c r IH]; cbn [lstrip].
  - exists "". reflexivity.
  - destruct (sp c).
    + destruct IH as [p E]. exists (String c p). simpl. now rewrite <- E.
    + exists "". reflexivity.
Qed.

Lemma rev_str_app (a b : string) : rev_str (a ++ b) = rev_str b ++ rev_str a.
Proof.
  induction a as [|c a IH]; simpl.
  - now rewrite str_app_nil_r.
  - now rewrite IH, str_app_assoc.
Qed.

Lemma rev_str_involutive (s : string) : rev_str (rev_str s) = s.
Proof. induction s as [|c r IH]; simpl; [reflexivity|]. now rewrite rev_str_app, IH. Qed.

Lemma strip_substr (sp : ascii -> bool) (s : string) : substr_of (strip sp s) s.
Proof.
  unfold strip, rstrip.
  destruct (lstrip_suffix sp s) as [p Ep].
  destruct (lstrip_suffix sp (rev_str (lstrip sp s))) as [p2 E2].
  set (u := lstrip sp s) in *. set (v := lstrip sp (rev_str u)) in *.
  exists p, (rev_str p2).
  rewrite Ep at 1. f_equal.
  rewrite <- (rev_str_involutive u) at 1. rewrite E2 at 1. now rewrite rev_str_app.
Qed.

Lemma substr_no_sub (t u s : string) : substr_of u s -> ~ substr_of t s -> ~ substr_of t u.
Proof. intros Hu Hs Ht. apply Hs. eapply substr_trans; eauto. Qed.

Lemma substr_empty (t : string) : substr_of t "" -> t = "".
Proof. intros [p [q E]]. destruct p; [destruct t; [reflexivity | discriminate] | discriminate]. Qed.

End PyStrProofs.

(** ** [email.split('@')[0]] *)
Module UsernameProofs.
Import PyStr PyStrProofs Username.

(** The username the explorer and the course executor derive from an inbox
    address is the text before its first ['@']: it holds no ['@'], and the
    address is the username followed by nothing or by ['@'] and the rest. *)
Theorem username_is_text_before_first_at (email : string) :
  ~ substr_of "@" (username_of email) /\
  exists rest, email = username_of email ++ rest /\ (rest = "" \/ exists r, rest = "@" ++ r).
Proof.
  unfold username_of. split; [apply first_piece_no_sep; discriminate|].
  rewrite first_piece_before. destruct (before_spec "@" email) as [t [E H]].
  exists t. split; [exact E|]. destruct H as [->|H]; [now left | right; now apply prefix_spec].
Qed.

End UsernameProofs.

(** ** ProductExplorer._parse_analysis *)
Module ParseAnalysisProofs.
Import PyStr PyStrProofs ParseAnalysis.

Lemma map_option_all {A B : Type} (f : A -> option B) (P : B -> Prop) (l : list A) :
  (forall x, exists y, f x = Some y /\ P y) -> exists ys, map_option f l = Some ys /\ Forall P ys.
Proof.
  intros Hf. induction l as [|x r IH]; cbn [map_option].
  - exists []. split; [reflexivity | constructor].
  - destruct (Hf x) as (y & -> & Py). destruct IH as (ys & -> & Pys).
    exists (y :: ys). split; [reflexivity | now constructor].
Qed.

Section PA.
Variable is_space : ascii -> bool.
Variable re_split_actions : string -> list string.

Lemma subsection_spec (hdr stop s : string) : hdr <> "" -> stop <> "" ->
    exists v, subsection is_space hdr stop s = Some v /\
      (~ substr_of hdr s -> v = "") /\ ~ substr_of stop v /\ substr_of v s.
  Proof.
    intros Hh Hs. unfold subsection.
    destruct (contains hdr s) eqn:C.
    - destruct (split_second hdr s Hh C) as [x Hx].
      unfold between. rewrite Hx. cbn [option_map].
      eexists. split; [reflexivity|]. split; [|split].
      + intros Hn. exfalso. apply Hn. now apply contains_spec.
      + eapply substr_no_sub; [apply strip_substr | now apply first_piece_no_sep].
      + eapply substr_trans; [apply strip_substr|]. eapply substr_trans; [apply first_piece_substr|].
        apply (py_split_pieces hdr). eapply nth_error_In. exact Hx.
    - eexists. split; [reflexivity|]. split; [|split].
      + reflexivity.
      + intros H. apply substr_empty in H. congruence.
      + exists "", s. reflexivity.
  Qed.

Lemma action_of_block_spec (block : string) :
    exists a, action_of_block is_space block = Some a /\
      ~ substr_of nl (name a) /\ ~ substr_of "**What This Action Does" (how_to_start a) /\
      ~ substr_of "**Purpose" (what_it_does a) /\ ~ substr_of "###" (purpose a).
  Proof.
    unfold action_of_block.
    destruct (subsection_spec "**How to Start" "**What This Action Does" block)
      as (h & Eh & _ & Nh & _); try discriminate.
    destruct (subsection_spec "**What This Action Does" "**Purpose" block)
      as (w & Ew & _ & Nw & _); try discriminate.
    destruct (subsection_spec "**Purpose" "###" block) as (p & Ep & _ & Np & _); try discriminate.
    rewrite Eh, Ew, Ep. eexists. split; [reflexivity|]. cbn [name how_to_start what_it_does purpose].
    split; [|split; [exact Nh | split; [exact Nw | exact Np]]].
    destruct (py_split nl (strip is_space block)) as [|l0 ls] eqn:E.
    - intros H. apply substr_empty in H. discriminate.
    - eapply substr_no_sub; [apply strip_substr|].
      replace l0 with (first_piece nl (strip is_space block)) by (unfold first_piece; now rewrite E).
      apply first_piece_no_sep. discriminate.
  Qed.

Lemma parse_actions_spec (raw : string) :
    exists acts, parse_actions is_space re_split_actions raw = Some acts /\
      (~ substr_of "## HIGH-LEVEL USER ACTIONS" raw -> acts = []) /\
      Forall (fun a => ~ substr_of nl (name a) /\ ~ substr_of "**What This Action Does" (how_to_start a) /\
                       ~ substr_of "**Purpose" (what_it_does a) /\ ~ substr_of "###" (purpose a)) acts.
  Proof.
    unfold parse_actions.
    destruct (contains "## HIGH-LEVEL USER ACTIONS" raw) eqn:C.
    - destruct (split_second "## HIGH-LEVEL USER ACTIONS" raw ltac:(discriminate) C) as [x Hx].
      rewrite Hx.
      destruct (map_option_all (action_of_block is_space) _
                  (tl (re_split_actions (if contains "## PRODUCT WORKFLOW" x
                                         then first_piece "## PRODUCT WORKFLOW" x else x)))
                  action_of_block_spec) as (acts & Ea & Fa).
      exists acts. split; [exact Ea|]. split; [|exact Fa].
      intros Hn. exfalso. apply Hn. now apply contains_spec.
    - exists []. split; [reflexivity|]. split; [reflexivity | constructor].
  Qed.
End PA.

(** [_parse_analysis] never raises: every [[1]] it takes is guarded by the
    matching [in] test. The result keeps the raw output, and the fields
    ['product_purpose'], ['workflow'] and ['observations'] are always
    left empty. *)
Theorem parse_analysis_never_raises (is_space : ascii -> bool) (re_split_actions : string -> list string)
    (raw : string) :
  exists a, _parse_analysis is_space re_split_actions raw = Some a /\
    raw_output a = raw /\ product_purpose a = "" /\ workflow a = "" /\ observations a = "".
Proof.
  unfold _parse_analysis.
  destruct (subsection_spec is_space "## PRODUCT OVERVIEW" "##" raw) as (ov & Eo & _); try discriminate.
  destruct (parse_actions_spec is_space re_split_actions raw) as (acts & Ea & _).
  rewrite Eo, Ea. eexists. repeat split.
Qed.

(** The product overview is empty when the output has no
    ['## PRODUCT OVERVIEW'] header; it is always a piece of the raw output
    and never contains ['##'] (it stops at the next header). *)
Theorem parse_analysis_overview (is_space : ascii -> bool) (re_split_actions : string -> list string)
    (raw : string) :
  exists a, _parse_analysis is_space re_split_actions raw = Some a /\
    (~ substr_of "## PRODUCT OVERVIEW" raw -> product_overview a = "") /\
    ~ substr_of "##" (product_overview a) /\ substr_of (product_overview a) raw.
Proof.
  unfold _parse_analysis.
  destruct (subsection_spec is_space "## PRODUCT OVERVIEW" "##" raw) as (ov & Eo & Ho); try discriminate.
  destruct (parse_actions_spec is_space re_split_actions raw) as (acts & Ea & _).
  rewrite Eo, Ea. eexists. split; [reflexivity | exact Ho].
Qed.

(** The action list is empty when the output has no
    ['## HIGH-LEVEL USER ACTIONS'] header. Whatever the action blocks are,
    each action's name is a single line, and its three subsections stop at
    the next marker: ['how_to_start'] holds no ['**What This Action Does'],
    ['what_it_does'] no ['**Purpose'] and ['purpose'] no ['###']. *)
Theorem parse_analysis_actions (is_space : ascii -> bool) (re_split_actions : string -> list string)
    (raw : string) :
  exists a, _parse_analysis is_space re_split_actions raw = Some a /\
    (~ substr_of "## HIGH-LEVEL USER ACTIONS" raw -> actions a = []) /\
    Forall (fun ad => ~ substr_of nl (name ad) /\
                      ~ substr_of "**What This Action Does" (how_to_start ad) /\
                      ~ substr_of "**Purpose" (what_it_does ad) /\ ~ substr_of "###" (purpose ad))
           (actions a).
Proof.
  unfold _parse_analysis.
  destruct (subsection_spec is_space "## PRODUCT OVERVIEW" "##" raw) as (ov & Eo & _); try discriminate.
  destruct (parse_actions_spec is_space re_split_actions raw) as (acts & Ea & Ha).
  rewrite Eo, Ea. eexists. split; [reflexivity | exact Ha].
Qed.

End ParseAnalysisProofs.

(** ** ProductExplorer._monitor_verification_email *)
Module ExplorerMonitorProofs.
Import Poll Inbox CreateSession PyStr ExplorerMonitor.

(** The email monitor acts only on a ['link'] result; for anything else
    (no result, a ['code'], an exception or a cancellation) it makes no
    request and leaves [session_id] and [task_id] as they were. On a link it
    first stops the current session. If [create_session] then raises, the
    explorer still names the session it has just stopped. If the session
    is created, [session_id] becomes its id, and the continuation task is
    posted on that session with the link as its start URL: [task_id] becomes
    the id of the task [create_task] returns, and keeps the previous task's
    id exactly when [create_task] raises. *)
Theorem explorer_monitor_state (dict : Type) (get_id : dict -> option string)
    (post_session : nat -> post_result dict) (post_task : list (string * string) -> option dict)
    (build : string -> string -> string -> string -> string)
    (st : explorer) (result : outcome (option verification))
    (product_url email username password : string) :
  let res := _monitor_verification_email dict get_id post_session post_task build st result
               product_url email username password in
  ((forall r t0, result = Returned (Some r) t0 -> v_type r <> "link") /\ fst res = [] /\ snd res = st) \/
  (exists r t0, result = Returned (Some r) t0 /\ v_type r = "link" /\
     hd_error (fst res) = Some (StopSession (session_id st)) /\
     ((exists e, snd (create_session dict post_session default_retries) = Raise e /\ snd res = st) \/
      (exists d, snd (create_session dict post_session default_retries) = Created d /\
         let payload := task_payload (continuation_task (build product_url email username password))
                          (get_id d) (Some (v_value r)) in
         (post_task payload = None -> snd res = mk_explorer (get_id d) (task_id st)) /\
         (forall td, post_task payload = Some td -> snd res = mk_explorer (get_id d) (get_id td))))).
Proof.
  cbv zeta. unfold _monitor_verification_email.
  destruct result as [[r|] t0|t0|t0];
    try (left; split; [intros r' t' E; discriminate E | split; reflexivity]).
  destruct (String.eqb_spec (v_type r) "link") as [Hl|Hl].
  - right. exists r, t0. split; [reflexivity|]. split; [exact Hl|].
    destruct (create_session dict post_session default_retries) as [evs [d|e]].
    + cbv zeta. cbn [fst snd session_id task_id].
      destruct (post_task (task_payload (continuation_task (build product_url email username password))
                             (get_id d) (Some (v_value r)))) as [td0|] eqn:EP;
        cbn [fst snd hd_error app]; split; try reflexivity;
        right; exists d; (split; [reflexivity|]); split.
      * intros H. congruence.
      * intros td H. rewrite EP in H. injection H as <-. reflexivity.
      * intros _. reflexivity.
      * intros td H. congruence.
    + cbn [fst snd hd_error]. split; [reflexivity|]. left. now exists e.
  - left. split; [|split; reflexivity].
    intros r' t' E. injection E as <- <-. exact Hl.
Qed.

End ExplorerMonitorProofs.

(** ** CourseExecutor.execute_course *)
Module ExecuteCourseProofs.
Import PyStr CourseTask ExecuteCourse.

Section ECP.
Variable val : Type.
Variable py_str : val -> string.
Variable netloc : string -> string.
Variable ev : Type.
Variable session_at : nat -> option (string * string).
Variable task_at : nat -> option string.
Variable wait_at : nat -> option (string * list ev).
Variable email_result : option (option string).
Variable video_result : option (option string).
Variable share : option string.

Ltac run_cases :=
  unfold execute_course;
  destruct (session_at 0) as [[s0 l0]|] eqn:E0;
  [destruct (task_at 0) as [t0|] eqn:T0;
   [destruct (wait_at 0) as [w0|] eqn:W0;
    [destruct email_result as [[u|]|] eqn:Em;
     [destruct (truthy (Some u)) eqn:Tu;
      [destruct (session_at 1) as [[s1 l1]|] eqn:E1;
       [destruct (task_at 1) as [t1|] eqn:T1;
        [destruct (wait_at 1) as [[st1 tl1]|] eqn:W1;
         [destruct video_result as [vf|] eqn:Vr | ] | ] | ] | ] | | ] | ] | ] | ].

(** A course run starts with its stagger pause of [10 * course_index]
    seconds (none for the first course), or else with the signup session.
    The only session it ever stops is the signup session: the course
    session it opens at the verification URL is left running. *)
Theorem execute_course_stops_only_signup_session (c : course val) (course_index : nat)
    (product_url email password : string) (capture_timeline : bool) :
  let tr := fst (execute_course val py_str netloc ev session_at task_at wait_at email_result
                   video_result share c course_index product_url email password capture_timeline) in
  hd_error tr = Some (if Nat.ltb 0 course_index then Sleep (Z.of_nat course_index * 10)
                      else CreateSession product_url) /\
  (forall sid, In (StopSession sid) tr -> exists live, session_at 0 = Some (sid, live)).
Proof.
  cbv zeta. run_cases; destruct (Nat.ltb 0 course_index);
    (split; [reflexivity|]); cbn [fst app In];
    intros sid H; repeat destruct H as [H|H]; try discriminate H; try contradiction;
    injection H as <-; eauto.
Qed.

(** When the email monitor brings back no verification URL ([None] or an
    empty string) after the signup task has finished, the run stops the
    signup session and returns the failure entry: it never opens a second
    session or a course task. *)
Theorem execute_course_no_verification_url (c : course val) (course_index : nat)
    (product_url email password : string) (capture_timeline : bool)
    (signup_session_id live signup_task_id : string) (signup_result : string * list ev)
    (Hs : session_at 0 = Some (signup_session_id, live))
    (Ht : task_at 0 = Some signup_task_id)
    (Hw : wait_at 0 = Some signup_result)
    (He : email_result = Some None \/ email_result = Some (Some "")) :
  execute_course val py_str netloc ev session_at task_at wait_at email_result video_result share
    c course_index product_url email password capture_timeline =
  (((if Nat.ltb 0 course_index then [Sleep (Z.of_nat course_index * 10)] else [])
      ++ [CreateSession product_url; CreateTask signup_session_id (signup_task_desc email password) product_url;
          MonitorEmail; WaitTask signup_task_id false; StopSession signup_session_id])%list,
   Some (NoVerificationEmail val ev course_index (title_of val c course_index))).
Proof.
  unfold execute_course. rewrite Hs, Ht, Hw.
  destruct He as [-> | ->]; cbn [truthy String.eqb negb];
    destruct (Nat.ltb 0 course_index); reflexivity.
Qed.

(** A finished run reports [total_steps] equal to the number of timeline
    events it reports, and no events at all when [capture_timeline] is off.
    Its last requests are: stop the signup session, open the course session
    at the (non-empty) verification URL, create the course task there,
    start the live recording of that session and task with an estimated
    duration of 120 seconds, wait for the task, and fetch the share link. *)
Theorem execute_course_run_shape (c : course val) (course_index : nat)
    (product_url email password : string) (capture_timeline : bool)
    (tr : list request) (i : nat) (title : val + string) (status sid tid : string)
    (share_url video_file : option string) (em pw live : string) (timeline : list ev) (total : nat)
    (H : execute_course val py_str netloc ev session_at task_at wait_at email_result video_result share
           c course_index product_url email password capture_timeline =
         (tr, Some (CourseRun val ev i title status sid tid share_url video_file em pw live timeline total))) :
  total = List.length timeline /\ (capture_timeline = false -> timeline = []) /\
  i = course_index /\ share_url = share /\
  exists signup_sid l0 u pre, session_at 0 = Some (signup_sid, l0) /\ email_result = Some (Some u) /\
    u <> "" /\ session_at 1 = Some (sid, live) /\ task_at 1 = Some tid /\
    tr = (pre ++ [StopSession signup_sid; CreateSession u;
                  CreateTask sid (full_task email password
                                    (_build_course_task val py_str netloc c email password product_url)) u;
                  RecordLive live sid tid course_index 120; WaitTask tid capture_timeline; ShareLink sid])%list.
Proof.
  revert H. run_cases; intros H; try discriminate H.
  injection H as Htr Hi Hti Hst Hsid Htid Hsh Hvf Hem Hpw Hlive Htl Htot.
  subst i title status sid tid video_file em pw live.
  split; [subst total timeline; now destruct capture_timeline|].
  split; [intros ->; now subst timeline|].
  split; [reflexivity|]. split; [symmetry; exact Hsh|].
  exists s0, l0, u,
    ((if Nat.ltb 0 course_index then [Sleep (Z.of_nat course_index * 10)] else [])
       ++ [CreateSession product_url; CreateTask s0 (signup_task_desc email password) product_url;
           MonitorEmail; WaitTask t0 false])%list.
  split; [reflexivity|]. split; [reflexivity|].
  split; [intros ->; discriminate Tu|]. split; [reflexivity|]. split; [reflexivity|].
  rewrite <- Htr. rewrite <- !app_assoc. reflexivity.
Qed.

End ECP.

End ExecuteCourseProofs.

(** ** CourseExecutor._build_course_task *)
Module CourseTaskProofs.
Import PyStr CourseTask.

Lemma append_steps_concat (val : Type) (py_str : val -> string) (task : string) (steps : list (ui_step val)) :
  append_steps val py_str task steps = task ++ fold_right String.append "" (map (step_block val py_str) steps).
Proof.
  revert task. induction steps as [|s r IH]; intros task; cbn [append_steps map fold_right].
  - now rewrite str_app_nil_r.
  - rewrite IH. apply str_app_assoc.
Qed.

Lemma concat_in {A : Type} (f : A -> string) (l : list A) (a : A) :
  In a l -> substr_of (f a) (fold_right String.append "" (map f l)).
Proof.
  induction l as [|x l IH]; intros H; [destruct H|].
  cbn [map fold_right]. destruct H as [->|H].
  - apply substr_prefix.
  - apply substr_app_l. exact (IH H).
Qed.

Lemma concat_ordered {A : Type} (f : A -> string) (l : list A) (i j : nat) (a b : A) :
  i < j -> nth_error l i = Some a -> nth_error l j = Some b ->
  exists p q r, fold_right String.append "" (map f l) = p ++ f a ++ q ++ f b ++ r.
Proof.
  revert i j. induction l as [|x l IH]; intros i j Hij Ha Hb.
  - destruct i; discriminate Ha.
  - destruct j as [|j]; [lia|]. cbn [nth_error] in Hb. cbn [map fold_right].
    destruct i as [|i].
    + cbn [nth_error] in Ha. injection Ha as <-.
      destruct (concat_in f l b (nth_error_In l j Hb)) as (q & r & E).
      exists "", q, r. rewrite E. reflexivity.
    + cbn [nth_error] in Ha.
      destruct (IH i j ltac:(lia) Ha Hb) as (p & q & r & E).
      exists (f x ++ p), q, r. rewrite E, str_app_assoc. reflexivity.
Qed.

(** The course task starts with the header and ends with the credentials
    and expected-outcome tail. Every UI step of the course has its step
    block in between, and the blocks follow the order of [ui_steps]: the
    block of an earlier step comes before the block of a later one. The
    email and the password stand on consecutive lines of the task. *)
Theorem build_course_task_steps_in_order (val : Type) (py_str : val -> string)
    (netloc : string -> string) (c : course val) (email password product_url : string) :
  let task := _build_course_task val py_str netloc c email password product_url in
  (exists mid, task = task_head val py_str netloc c product_url ++ mid ++ task_tail val py_str c email password /\
     (forall s, In s (steps_of val c) -> substr_of (step_block val py_str s) mid) /\
     (forall i j si sj, i < j -> nth_error (steps_of val c) i = Some si ->
        nth_error (steps_of val c) j = Some sj ->
        exists p q r, mid = p ++ step_block val py_str si ++ q ++ step_block val py_str sj ++ r)) /\
  substr_of ("- Email: " ++ email ++ nl ++ "- Password: " ++ password ++ nl) task.
Proof.
  cbv zeta. unfold _build_course_task. rewrite append_steps_concat, str_app_assoc. split.
  - eexists. split; [reflexivity|]. split.
    + intros s Hs. exact (concat_in _ _ s Hs).
    + intros i j si sj Hij Hi Hj. exact (concat_ordered _ _ i j si sj Hij Hi Hj).
  - apply substr_app_l, substr_app_l. unfold task_tail.
    exists (nl ++ nl ++ "CREDENTIALS (if needed):" ++ nl),
      (nl ++ "EXPECTED OUTCOME:" ++ nl
       ++ get_str val py_str (expected_outcome val (impl_of val c)) "Course completed successfully" ++ nl ++ nl
       ++ "Execute each step carefully and verify the expected results." ++ nl
       ++ "Provide a summary of what was accomplished." ++ nl).
    rewrite !str_app_assoc. reflexivity.
Qed.

End CourseTaskProofs.

(** ** The timeline preview of CourseExecutor.save_execution_results *)
Module PreviewProofs.
Import Preview.

(** Up to seven events are all shown, in order. Beyond seven, the preview
    has exactly eight entries: the first five events, one marker standing
    for the events in between (there is at least one), and the last two
    events. *)
Theorem preview_events_shape (A : Type) (marker : A) (l : list A) :
  (List.length l <= 7 -> preview_events A marker l = l) /\
  (7 < List.length l ->
   exists mid last2, mid <> [] /\ List.length last2 = 2 /\ l = (firstn 5 l ++ mid ++ last2)%list /\
     preview_events A marker l = (firstn 5 l ++ [marker] ++ last2)%list /\
     List.length (preview_events A marker l) = 8).
Proof.
  unfold preview_events. split.
  - intros Hn. destruct (Nat.ltb_spec 7 (List.length l)); [lia|].
    destruct (Nat.ltb_spec 5 (List.length l)).
    + apply firstn_skipn.
    + apply firstn_all2. exact H0.
  - intros Hn. destruct (Nat.ltb_spec 7 (List.length l)); [|lia].
    exists (firstn (List.length l - 2 - 5) (skipn 5 l)), (skipn (List.length l - 2) l).
    assert (Hl2 : List.length (skipn (List.length l - 2) l) = 2) by (rewrite length_skipn; lia).
    split; [|split; [exact Hl2|split; [|split; [reflexivity|]]]].
    + intros E. apply (f_equal (@List.length A)) in E. rewrite length_firstn, length_skipn in E.
      cbn [List.length] in E. lia.
    + rewrite <- (firstn_skipn 5 l) at 1. f_equal.
      replace (skipn (List.length l - 2) l) with (skipn (List.length l - 2 - 5) (skipn 5 l)).
      * symmetry. apply firstn_skipn.
      * rewrite skipn_skipn. f_equal. lia.
    + rewrite !length_app, length_firstn, Hl2. cbn [List.length]. lia.
Qed.

(** The agent's plan shown for an event is a single line: every newline of
    the memory becomes a space. It keeps the first 200 code points, is
    exactly the memory when that is not longer, and otherwise ends in
    ['...'] for 203 code points in all. *)
Theorem plan_single_line_bounded (memory : list N) :
  ~ In 10%N (plan memory) /\
  List.length (plan memory) = (if Nat.ltb 200 (List.length memory) then 203 else List.length memory) /\
  (forall k c, k < 200 -> nth_error memory k = Some c ->
     nth_error (plan memory) k = Some (if N.eqb c 10 then 32%N else c)).
Proof.
  unfold plan.
  assert (Hmap : ~ In 10%N (map (fun c => if N.eqb c 10 then 32%N else c) (firstn 200 memory))).
  { rewrite in_map_iff. intros (c & E & _). revert E.
    destruct (N.eqb_spec c 10) as [_|Hc]; intros E; [discriminate E | exact (Hc E)]. }
  split; [|split].
  - destruct (Nat.ltb 200 (List.length memory)); [|exact Hmap].
    rewrite in_app_iff. intros [H|H]; [exact (Hmap H)|]. cbn in H. intuition discriminate.
  - destruct (Nat.ltb_spec 200 (List.length memory));
      rewrite ?length_app, length_map, length_firstn; cbn [List.length]; lia.
  - intros k c Hk Hc.
    assert (Hf : nth_error (map (fun c => if N.eqb c 10 then 32%N else c) (firstn 200 memory)) k
                 = Some (if N.eqb c 10 then 32%N else c)).
    { rewrite nth_error_map, nth_error_firstn. destruct (Nat.ltb_spec k 200); [|lia].
      now rewrite Hc. }
    destruct (Nat.ltb 200 (List.length memory)); [|exact Hf].
    rewrite nth_error_app1; [exact Hf|].
    apply nth_error_Some. rewrite Hf. discriminate.
Qed.

End PreviewProofs.

(** ** The timeline of CourseExecutor._wait_for_task *)
Module WaitForTaskProofs.
Import Sorted.
Import Poll.

Lemma ssorted_app (l m : list Z) :
  StronglySorted Z.le l -> StronglySorted Z.le m -> (forall x y, In x l -> In y m -> x <= y)%Z ->
  StronglySorted Z.le (l ++ m).
Proof.
  induction l as [|a l IH]; intros Hl Hm Hlm; [exact Hm|].
  apply StronglySorted_inv in Hl as [Hl Ha]. cbn [app]. constructor.
  - apply IH; [exact Hl | exact Hm | intros x y Hx Hy; apply Hlm; [right|]; assumption].
  - apply Forall_app. split; [exact Ha|]. apply Forall_forall. intros y Hy. apply Hlm; [left|]; auto.
Qed.

Lemma ssorted_const (o : Z) (n : nat) : StronglySorted Z.le (repeat o n).
Proof.
  induction n as [|n IH]; cbn [repeat]; constructor; [exact IH|].
  apply Forall_forall. intros y Hy. apply repeat_spec in Hy. lia.
Qed.

Lemma map_snd_stamp {A : Type} (o : Z) (r : list A) :
  map snd (map (fun st => (st, o)) r) = repeat o (List.length r).
Proof. induction r as [|x r IH]; cbn; [reflexivity | now rewrite IH]. Qed.

Section Timeline.
Variable dict : Type.
Variable status : dict -> option string.
Variable delay : nat -> Z.
Variable resp : nat -> http dict.
Variable step : Type.
Variable steps : dict -> list step.
  (** Each request takes non-negative time. *)
Hypothesis delay_nonneg : forall k, (0 <= delay k)%Z.
  (** The task's step list only grows between two consecutive answers. *)
Hypothesis steps_grow : forall j dj dj', resp j = HOk dj -> resp (S j) = HOk dj' ->
  exists r, steps dj' = (steps dj ++ r)%list.

Definition prev_steps (k : nat) (ps : list step) : Prop :=
  match k with O => ps = [] | S j => exists dp, resp j = HOk dp /\ steps dp = ps end.

Lemma wait_for_task_timeline_inv (fuel : nat) : forall k start now tl0 ps d tl t,
    prev_steps k ps -> (start <= now)%Z -> map fst tl0 = ps ->
    StronglySorted Z.le (map snd tl0) -> Forall (fun o => 2000 <= o <= now - start)%Z (map snd tl0) ->
    _wait_for_task dict status delay resp step steps true fuel k start now (List.length ps) tl0
      = Returned (d, tl) t ->
    map fst tl = steps d /\ StronglySorted Z.le (map snd tl) /\
    Forall (fun o => 2000 <= o <= t - start)%Z (map snd tl).
Proof.
  induction fuel as [|f IH]; intros k start now tl0 ps d tl t Hprev Hsn Hfst Hsort Hbnd H;
    cbn [_wait_for_task] in H; [discriminate H|].
  destruct (resp k) as [d'|] eqn:Rk; [|discriminate H].
  assert (Hr : exists r, steps d' = (ps ++ r)%list).
  { destruct k as [|j]; cbn [prev_steps] in Hprev.
    - subst ps. now exists (steps d').
    - destruct Hprev as (dp & Rj & <-). exact (steps_grow j dp d' Rj Rk). }
  destruct Hr as [r Er].
  assert (Hskip : skipn (List.length ps) (steps d') = r).
  { rewrite Er, skipn_app, skipn_all, Nat.sub_diag. reflexivity. }
  rewrite Hskip in H.
  set (now1 := (now + 2000 + delay k)%Z) in H.
  assert (Hn1 : (now + 2000 <= now1)%Z) by (pose proof (delay_nonneg k); unfold now1; lia).
  set (tl1 := (tl0 ++ map (fun st => (st, (now1 - start)%Z)) r)%list) in H.
  assert (F1 : map fst tl1 = steps d').
  { unfold tl1. rewrite map_app, map_map, Er, Hfst. cbn. now rewrite map_id. }
  assert (F2 : StronglySorted Z.le (map snd tl1)).
  { unfold tl1. rewrite map_app, map_snd_stamp. apply ssorted_app; [exact Hsort | apply ssorted_const|].
    intros x y Hx Hy. apply repeat_spec in Hy. subst y.
    rewrite Forall_forall in Hbnd. specialize (Hbnd x Hx). lia. }
  assert (F3 : Forall (fun o => 2000 <= o <= now1 - start)%Z (map snd tl1)).
  { unfold tl1. rewrite map_app, map_snd_stamp. apply Forall_app. split.
    - eapply Forall_impl; [|exact Hbnd]. intros o Ho. cbn beta in Ho |- *. lia.
    - apply Forall_forall. intros y Hy. apply repeat_spec in Hy. subst y. lia. }
  destruct (terminal (status d')).
  - injection H as <- <- <-. auto.
  - eapply (IH (S k) start now1 tl1 (steps d')); try eassumption; [| lia].
    cbn [prev_steps]. now exists d'.
Qed.

(** With the timeline captured, a task that [_wait_for_task] returns
    carries one event per step of its final step list, in order, with no
    step lost or repeated: this holds when the step list only grows between
    polls. The events' offsets never decrease, and each lies between the
    first poll (2 seconds after the start) and the return. *)
Theorem wait_for_task_timeline (fuel : nat) (start : Z) (d : dict) (tl : list (step * Z)) (t : Z)
    (H : _wait_for_task dict status delay resp step steps true fuel 0 start start 0 [] = Returned (d, tl) t) :
  map fst tl = steps d /\ StronglySorted Z.le (map snd tl) /\
  Forall (fun o => 2000 <= o <= t - start)%Z (map snd tl).
Proof.
  refine (wait_for_task_timeline_inv fuel 0 start start [] [] d tl t eq_refl _ eq_refl _ _ H);
    [lia | constructor | constructor].
Qed.
End Timeline.
End WaitForTaskProofs.

(** ** The verification-email loops *)
Module InboxExtraProofs.
Import Poll Inbox PyStr PyStrProofs.

Section Loops.
Variable msg : Type.
Variable delay : nat -> Z.
Variable list_at : nat -> listing msg.
Variable handle_message : nat -> msg -> verification.
Variable llm_at : nat -> option string.

Lemma accept_url_spec (u : string) :
  accept_url u = true -> u <> "" /\ u <> "NONE" /\ exists r, u = "http" ++ r.
Proof.
  unfold accept_url, startswith. intros H.
  apply andb_true_iff in H as [H Hp]. apply andb_true_iff in H as [H1 H2].
  apply negb_true_iff, String.eqb_neq in H1. apply negb_true_iff, String.eqb_neq in H2.
  split; [exact H1|]. split; [exact H2|]. now apply prefix_spec.
Qed.

Lemma course_monitor_returned_url (timeout : Z) (fuel : nat) : forall k start now u t,
    _monitor_verification_email msg delay list_at llm_at timeout fuel k start now = Returned (Some u) t ->
    accept_url u = true /\ exists j m ms, k <= j /\ list_at j = LOk (m :: ms) /\ llm_at j = Some u.
Proof.
  induction fuel as [|f IH]; intros k start now u t H; cbn [_monitor_verification_email] in H;
    [discriminate H|].
  destruct (now - start <? timeout * 1000)%Z; [|discriminate H].
  destruct (list_at k) as [[|m ms]|] eqn:Lk; [| |discriminate H].
  - destruct (IH (S k) start _ u t H) as (Ha & j & m & ms & Hj & Hl & Hu).
    split; [exact Ha|]. exists j, m, ms. split; [lia | now split].
  - destruct (llm_at k) as [v|] eqn:Ek.
    + destruct (accept_url v) eqn:Av.
      * injection H as <- _. split; [exact Av|]. exists k, m, ms. auto.
      * destruct (IH (S k) start _ u t H) as (Ha & j & m' & ms' & Hj & Hl & Hu).
        split; [exact Ha|]. exists j, m', ms'. split; [lia | now split].
    + destruct (IH (S k) start _ u t H) as (Ha & j & m' & ms' & Hj & Hl & Hu).
      split; [exact Ha|]. exists j, m', ms'. split; [lia | now split].
Qed.

(** The URL [CourseExecutor._monitor_verification_email] returns is never
    empty nor ['NONE'], and starts with ['http']; it is the LLM's answer for
    a poll at which the inbox listed at least one message. *)
Theorem course_monitor_url_accepted (timeout : Z) (fuel : nat) (start : Z) (u : string) (t : Z)
    (H : _monitor_verification_email msg delay list_at llm_at timeout fuel 0 start start = Returned (Some u) t) :
  u <> "" /\ u <> "NONE" /\ (exists r, u = "http" ++ r) /\
  exists j m ms, list_at j = LOk (m :: ms) /\ llm_at j = Some u.
Proof.
  destruct (course_monitor_returned_url timeout fuel 0 start start u t H) as (Ha & j & m & ms & _ & Hl & Hu).
  destruct (accept_url_spec u Ha) as (H1 & H2 & H3).
  split; [exact H1|]. split; [exact H2|]. split; [exact H3|]. now exists j, m, ms.
Qed.

Lemma verification_loop_first_message (timeout : Z) (fuel : nat) : forall k start now v t,
    verification_loop msg delay list_at handle_message timeout fuel k start now = Returned (Some v) t ->
    exists j m ms, k <= j /\ list_at j = LOk (m :: ms) /\ v = handle_message j m /\
      forall i, k <= i < j -> list_at i = LOk [].
Proof.
  induction fuel as [|f IH]; intros k start now v t H; cbn [verification_loop] in H; [discriminate H|].
  destruct (now - start <? timeout * 1000)%Z; [|discriminate H].
  destruct (list_at k) as [[|m ms]|] eqn:Lk; [| |discriminate H].
  - destruct (IH (S k) start _ v t H) as (j & m & ms & Hj & Hl & Hv & Hb).
    exists j, m, ms. split; [lia|]. split; [exact Hl|]. split; [exact Hv|].
    intros i Hi. destruct (Nat.eq_dec i k) as [->|Hne]; [exact Lk|]. apply Hb. lia.
  - injection H as <- _. exists k, m, ms. split; [lia|]. split; [exact Lk|]. split; [reflexivity|].
    intros i Hi. lia.
Qed.

(** A verification [ProductExplorer.get_verification_data] returns comes
    from the first poll at which the inbox listed a message, and from the
    first message of that listing: every earlier poll listed none. It needs
    an inbox. *)
Theorem get_verification_data_first_message (inbox_present : bool) (timeout : Z) (fuel : nat)
    (start : Z) (v : verification) (t : Z)
    (H : get_verification_data msg delay list_at handle_message inbox_present timeout fuel start
         = Returned (Some v) t) :
  inbox_present = true /\
  exists j m ms, list_at j = LOk (m :: ms) /\ v = handle_message j m /\
    forall i, i < j -> list_at i = LOk [].
Proof.
  unfold get_verification_data in H. destruct inbox_present; [|discriminate H].
  destruct (verification_loop_first_message timeout fuel 0 start start v t H) as (j & m & ms & _ & Hl & Hv & Hb).
  split; [reflexivity|]. exists j, m, ms. split; [exact Hl|]. split; [exact Hv|].
  intros i Hi. apply Hb. lia.
Qed.
End Loops.

End InboxExtraProofs.

(** ** VideoComposer._compose_with_ffmpeg: inputs and probed durations *)
Module ComposeProofs.
Import VideoComposer VideoComposerProofs.

(** The files passed as inputs 2, 3, ... : one per segment that has a video. *)
Definition segment_files {num : Type} (segs : list (segment num)) : list string :=
  flat_map (fun s => match video_file_set num s with Some f => [f] | None => [] end) segs.

Section Compose.
Variable num : Type.
Variable py_add : num -> num -> num.
Variable py_str : num -> string.
Variable int_ms : num -> Z.
Variable lit0 lit5 lit12 : num.
Variable absolute : string -> string.

Lemma video_file_set_none (s : segment num) : video_file num s = None -> video_file_set num s = None.
Proof. intros H. unfold video_file_set. now rewrite H. Qed.

Lemma video_file_set_some (s : segment num) (f : string) :
  video_file num s = Some f -> f <> "" -> video_file_set num s = Some f.
Proof.
  intros H Hf. unfold video_file_set. rewrite H.
  destruct (String.eqb_spec f ""); [contradiction | reflexivity].
Qed.

Lemma video_file_probe (probe : string -> num) (s : segment num) :
  video_file_set num (probe_segment num probe s) = video_file_set num s.
Proof.
  unfold probe_segment. destruct (video_file_set num s) eqn:E; [|exact E].
  rewrite <- E. reflexivity.
Qed.

Lemma segment_files_probe (probe : string -> num) (segs : list (segment num)) :
  segment_files (map (probe_segment num probe) segs) = segment_files segs.
Proof.
  induction segs as [|s r IH]; cbn [map segment_files flat_map]; [reflexivity|].
  fold (segment_files (map (probe_segment num probe) r)). fold (segment_files r).
  now rewrite video_file_probe, IH.
Qed.

Lemma video_inputs_files (segs : list (segment num)) :
  video_inputs num segs = flat_map (fun f => ["-i"; f]) (segment_files segs).
Proof.
  induction segs as [|s r IH]; [reflexivity|]. unfold video_inputs, segment_files in *.
  cbn [flat_map]. rewrite IH. destruct (video_file_set num s); reflexivity.
Qed.

Lemma segment_files_length (segs : list (segment num)) :
  List.length (segment_files segs) <= List.length segs.
Proof.
  induction segs as [|s r IH]; [reflexivity|]. unfold segment_files in *. cbn [flat_map].
  rewrite length_app. destruct (video_file_set num s); cbn [List.length]; lia.
Qed.

Lemma segment_files_missing (segs : list (segment num)) (s : segment num) :
  In s segs -> video_file_set num s = None -> List.length (segment_files segs) < List.length segs.
Proof.
  induction segs as [|s' r IH]; intros Hin Hs; [destruct Hin|]. unfold segment_files in *.
  cbn [flat_map]. rewrite length_app. destruct Hin as [<-|Hin].
  - rewrite Hs. cbn [List.length]. pose proof (segment_files_length r). unfold segment_files in H. lia.
  - specialize (IH Hin Hs). destruct (video_file_set num s'); cbn [List.length] in *; lia.
Qed.

Lemma compose_run_nonempty (has_audio : string -> bool) (probe : string -> num) (temp_exists ok : bool)
    (output_dir intro_video browser_recording output_file : string) (segs : list (segment num)) :
  segs <> [] ->
  let segs' := map (probe_segment num probe) segs in
  let fc := _build_overlay_filter num py_add py_str int_ms lit0 lit5 segs' lit12
              (has_audio (temp_browser output_dir)) in
  In (BuildFilter fc)
     (_compose_with_ffmpeg num py_add py_str int_ms lit0 lit5 lit12 absolute has_audio probe temp_exists ok
        output_dir intro_video browser_recording segs output_file) /\
  In (Ffmpeg (["ffmpeg"; "-y"; "-i"; intro_video; "-i"; temp_browser output_dir]
                ++ video_inputs num segs'
                ++ ["-filter_complex"; fc; "-map"; "[outv]"; "-map"; "[outa]"; "-c:v"; "libx264";
                    "-c:a"; "aac"; "-preset"; "fast"; output_file])%list)
     (_compose_with_ffmpeg num py_add py_str int_ms lit0 lit5 lit12 absolute has_audio probe temp_exists ok
        output_dir intro_video browser_recording segs output_file).
Proof.
  intros Hne segs' fc. unfold _compose_with_ffmpeg.
  destruct segs as [|s0 r]; [contradiction|]. fold segs' fc.
  split; apply in_or_app; right; apply in_or_app; right; apply in_or_app; left.
  - now left.
  - right. now left.
Qed.

(** When a narration segment has no ['video_file'], the overlay command
    still gets only one input per segment with a video, so fewer than one
    per segment, while the filter it passes reads input [n + 1] for [n]
    segments: an input index beyond the last one ([k + 1] for [k]
    files). *)
Theorem compose_missing_video_input (has_audio : string -> bool) (probe : string -> num)
    (temp_exists ok : bool) (output_dir intro_video browser_recording output_file : string)
    (segs : list (segment num)) (s : segment num)
    (Hin : In s segs) (Hnone : video_file num s = None) :
  let run := _compose_with_ffmpeg num py_add py_str int_ms lit0 lit5 lit12 absolute has_audio probe
               temp_exists ok output_dir intro_video browser_recording segs output_file in
  exists fc files, In (BuildFilter fc) run /\
    In (Ffmpeg (["ffmpeg"; "-y"; "-i"; intro_video; "-i"; temp_browser output_dir]
                  ++ flat_map (fun f => ["-i"; f]) files
                  ++ ["-filter_complex"; fc; "-map"; "[outv]"; "-map"; "[outa]"; "-c:v"; "libx264";
                      "-c:a"; "aac"; "-preset"; "fast"; output_file])%list) run /\
    List.length files < List.length segs /\
    substr_of ("[" ++ str_of_nat (List.length segs + 1) ++ ":v]scale=320:180") fc.
Proof.
  intros run.
  assert (Hne : segs <> []) by (intros ->; destruct Hin).
  destruct (compose_run_nonempty has_audio probe temp_exists ok output_dir intro_video
              browser_recording output_file segs Hne) as [H1 H2].
  set (segs' := map (probe_segment num probe) segs) in *.
  set (fc := _build_overlay_filter num py_add py_str int_ms lit0 lit5 segs' lit12
               (has_audio (temp_browser output_dir))) in *.
  exists fc, (segment_files segs). split; [exact H1|]. split.
  { rewrite video_inputs_files in H2. unfold segs' in H2. rewrite segment_files_probe in H2. exact H2. }
  split; [exact (segment_files_missing segs s Hin (video_file_set_none s Hnone))|].
  assert (Hlen : List.length segs' = List.length segs) by apply length_map.
  destruct (nth_error segs' (List.length segs - 1)) as [seg|] eqn:Hseg.
  2:{ apply nth_error_None in Hseg. destruct segs; [contradiction|]. cbn [List.length] in *. lia. }
  assert (Hsub := segment_in_segments_filters num py_add py_str int_ms lit0 lit5 lit12 segs' 0
                    (List.length segs - 1) seg Hseg).
  replace (List.length segs + 1) with (0 + (List.length segs - 1) + 2)
    by (destruct segs; [contradiction|]; cbn [List.length]; lia).
  eapply substr_trans; [|eapply substr_trans; [exact Hsub|]].
  - assert (E : forall x r, ("[" ++ x ++ ":v]scale=320:180,setpts=PTS+" ++ r)
                            = ("[" ++ x ++ ":v]scale=320:180") ++ (",setpts=PTS+" ++ r)).
    { intros x r. rewrite !str_app_assoc. reflexivity. }
    unfold segment_filters, video_filter. cbv zeta. rewrite E. apply substr_app_r, substr_prefix.
  - unfold fc, _build_overlay_filter. apply substr_app_l, substr_app_r, substr_refl.
Qed.

(** For every narration segment with a video file, the composer probes that
    file, and the segment's clauses in the filter use the probed duration
    (for the audio trim and the end of the overlay window) whatever
    ['duration'] the segment held, with its start shifted by the 12-second
    intro. *)
Theorem compose_uses_probed_duration (has_audio : string -> bool) (probe : string -> num)
    (temp_exists ok : bool) (output_dir intro_video browser_recording output_file : string)
    (segs : list (segment num)) (i : nat) (s : segment num) (f : string)
    (Hi : nth_error segs i = Some s) (Hf : video_file num s = Some f) (Hfne : f <> "") :
  let run := _compose_with_ffmpeg num py_add py_str int_ms lit0 lit5 lit12 absolute has_audio probe
               temp_exists ok output_dir intro_video browser_recording segs output_file in
  In (ProbeDuration f) run /\
  exists fc, In (BuildFilter fc) run /\
    substr_of (segment_filters num py_add py_str int_ms lit0 lit5 lit12 i
                 (mk_segment num (start_time num s) (Some (probe f)) (Some f))) fc.
Proof.
  intros run.
  assert (Hne : segs <> []) by (intros ->; destruct i; discriminate Hi).
  destruct (compose_run_nonempty has_audio probe temp_exists ok output_dir intro_video
              browser_recording output_file segs Hne) as [H1 _].
  split.
  - unfold run, _compose_with_ffmpeg. destruct segs as [|s0 r]; [contradiction|].
    apply in_or_app; right. apply in_or_app; left.
    unfold probe_actions. apply in_flat_map. exists s. split.
    + eapply nth_error_In. exact Hi.
    + rewrite (video_file_set_some s f Hf Hfne). now left.
  - eexists. split; [exact H1|].
    assert (Hseg : nth_error (map (probe_segment num probe) segs) i
                   = Some (mk_segment num (start_time num s) (Some (probe f)) (Some f))).
    { rewrite nth_error_map, Hi. cbn [option_map]. unfold probe_segment.
      now rewrite (video_file_set_some s f Hf Hfne), Hf. }
    unfold _build_overlay_filter. apply substr_app_l, substr_app_r.
    exact (segment_in_segments_filters num py_add py_str int_ms lit0 lit5 lit12 _ 0 i _ Hseg).
Qed.
End Compose.

End ComposeProofs.

(** ** The overlay run and its fallback *)
Module ComposeFallbackProofs.
Import VideoComposer.

Lemma split_tail {A : Type} (x : A) (l1 l2 l3 tail : list A) :
  exists mid, ((x :: l1) ++ l2 ++ l3 ++ tail = x :: mid ++ tail)%list.
Proof. exists (l1 ++ l2 ++ l3)%list. now rewrite <- !app_assoc. Qed.

Section Fallback.
Variable num : Type.
Variable py_add : num -> num -> num.
Variable py_str : num -> string.
Variable int_ms : num -> Z.
Variable lit0 lit5 lit12 : num.
Variable absolute : string -> string.

(** With narration segments, the browser recording is converted once,
    before anything else. When the overlay ffmpeg run succeeds, it is not
    converted again and no concat list is written. When the run fails, the
    fallback concatenation converts the recording a second time (the
    converted file was deleted after the run), then writes the concat list
    and runs the concat, which is the composer's last command. *)
Theorem compose_overlay_fallback_reconverts (has_audio : string -> bool) (probe : string -> num)
    (temp_exists ok : bool) (output_dir intro_video browser_recording output_file : string)
    (segs : list (segment num)) (Hne : segs <> []) :
  let run := _compose_with_ffmpeg num py_add py_str int_ms lit0 lit5 lit12 absolute has_audio probe
               temp_exists ok output_dir intro_video browser_recording segs output_file in
  let conv := Ffmpeg (convert_cmd browser_recording (temp_browser output_dir)) in
  hd_error run = Some conv /\
  (ok = true -> ~ In conv (tl run) /\ forall l, ~ In (WriteConcatList l) run) /\
  (ok = false -> exists mid, run = (conv :: mid ++
      [conv; WriteConcatList [("file '" ++ absolute intro_video ++ "'")%string;
                              ("file '" ++ absolute (temp_browser output_dir) ++ "'")%string];
       Ffmpeg ["ffmpeg"; "-y"; "-f"; "concat"; "-safe"; "0"; "-i";
               (output_dir ++ "/concat_list.txt")%string;
               "-c"; "copy"; output_file]])%list).
Proof.
  intros run conv. unfold run, _compose_with_ffmpeg.
  destruct segs as [|s0 r]; [contradiction|].
  set (segs := s0 :: r). fold segs.
  split; [reflexivity|]. split.
  - intros ->. rewrite app_nil_r. cbn [tl app]. split.
    + intros H. destruct H as [H|H]; [discriminate H|].
      apply in_app_or in H. destruct H as [H|H].
      * unfold probe_actions in H. apply in_flat_map in H. destruct H as (s & _ & Hs).
        destruct (video_file_set num s); [destruct Hs as [Hs|[]]; discriminate Hs | destruct Hs].
      * destruct H as [H|[H|[]]]; [discriminate H|].
        apply (f_equal (fun a => match a with Ffmpeg args => nth 4 args "" | _ => "" end)) in H.
        cbn in H. discriminate H.
    + intros l H. destruct H as [H|[H|H]]; try discriminate H.
      apply in_app_or in H. destruct H as [H|H].
      * unfold probe_actions in H. apply in_flat_map in H. destruct H as (s & _ & Hs).
        destruct (video_file_set num s); [destruct Hs as [Hs|[]]; discriminate Hs | destruct Hs].
      * destruct H as [H|[H|[]]]; discriminate H.
  - intros ->. exact (split_tail conv _ _ _ _).
Qed.
End Fallback.

End ComposeFallbackProofs.

(** ** Masking a generated password in the enhanced script *)
Module PasswordMaskProofs.
Import Password PasswordProofs.

Lemma filter_all_true {A : Type} (f : A -> bool) (l : list A) :
  (forall x, In x l -> f x = true) -> filter f l = l.
Proof.
  induction l as [|x l IH]; intros H; [reflexivity|]. cbn [filter].
  rewrite (H x (or_introl eq_refl)). f_equal. apply IH. intros y Hy. apply H. now right.
Qed.

(** Every character of a generated password is a one-byte (ASCII)
    character, so its [len] is its byte length. *)
Lemma password_char_not_continuation (draw : nat -> nat) (c : ascii) :
  In c (list_ascii_of_string (_generate_password draw)) -> is_continuation c = false.
Proof.
  intros Hc. unfold _generate_password in Hc.
  rewrite list_ascii_of_string_of_list_ascii in Hc.
  apply in_map_iff in Hc. destruct Hc as (j & <- & _).
  unfold choice. destruct (String.get (draw j) chars) as [c|] eqn:Hget; [|reflexivity].
  assert (Hin : In c (list_ascii_of_string chars)) by exact (get_in_string (draw j) chars c Hget).
  assert (Hall : forallb (fun c => negb (is_continuation c)) (list_ascii_of_string chars) = true)
    by (vm_compute; reflexivity).
  rewrite forallb_forall in Hall. specialize (Hall c Hin).
  destruct (is_continuation c); [discriminate Hall | reflexivity].
Qed.

(** A password from [_generate_password] is always longer than 12
    characters, so when the agent types it the enhanced script masks it
    exactly when it contains one of ['!@#$%']. *)
Theorem generated_password_masked_iff_special (draw : nat -> nat) :
  display_text (_generate_password draw) =
    if has_special (_generate_password draw) then "***" else _generate_password draw.
Proof.
  unfold display_text.
  replace (py_len (_generate_password draw)) with 16.
  - reflexivity.
  - unfold py_len. rewrite filter_all_true.
    + unfold _generate_password. rewrite list_ascii_of_string_of_list_ascii, length_map. reflexivity.
    + intros c Hc. rewrite (password_char_not_continuation draw c Hc). reflexivity.
Qed.

End PasswordMaskProofs.

(** ** The further properties at concrete inputs *)
Module ExtraWitnesses.
Import Poll Inbox VideoComposer CourseTask ExecuteCourse ExecuteCourseProofs WaitForTaskProofs
       InboxExtraProofs ComposeProofs ComposeFallbackProofs Sorted.

Lemma execute_course_no_verification_url_witness :
  let session_at := fun _ : nat => Some ("s1", "live1") in
  let task_at := fun _ : nat => Some "t1" in
  let wait_at := fun _ : nat => Some ("finished", @nil nat) in
  let email_result : option (option string) := Some None in
  session_at 0 = Some ("s1", "live1") /\ task_at 0 = Some "t1" /\
  wait_at 0 = Some ("finished", []) /\
  (email_result = Some None \/ email_result = Some (Some "")) /\
  execute_course string (fun s => s) (fun s => s) nat session_at task_at wait_at email_result None None
    (mk_course string None None None) 1 "https://app.example.com" "a@b.c" "pw" true =
  (([Sleep (Z.of_nat 1 * 10)]
      ++ [CreateSession "https://app.example.com";
          CreateTask "s1" (signup_task_desc "a@b.c" "pw") "https://app.example.com";
          MonitorEmail; WaitTask "t1" false; StopSession "s1"])%list,
   Some (NoVerificationEmail string nat 1 (title_of string (mk_course string None None None) 1))).
Proof.
  intros session_at task_at wait_at email_result.
  split; [reflexivity|]. split; [reflexivity|]. split; [reflexivity|]. split; [left; reflexivity|].
  exact (execute_course_no_verification_url string (fun s => s) (fun s => s) nat session_at task_at
           wait_at email_result None None (mk_course string None None None) 1 "https://app.example.com"
           "a@b.c" "pw" true "s1" "live1" "t1" ("finished", []) eq_refl eq_refl eq_refl
           (or_introl eq_refl)).
Defined.

Lemma execute_course_run_shape_witness :
  let session_at := fun n : nat => if Nat.eqb n 0 then Some ("s0", "l0") else Some ("s1", "l1") in
  let task_at := fun n : nat => if Nat.eqb n 0 then Some "t0" else Some "t1" in
  let wait_at := fun _ : nat => Some ("finished", [1; 2]) in
  let email_result := Some (Some "https://verify.example.com") in
  let video_result := Some (Some "v.mp4") in
  let share := Some "https://share.example.com" in
  let c := mk_course string (Some "Demo") None None in
  let res := execute_course string (fun s => s) (fun s => s) nat session_at task_at wait_at email_result
               video_result share c 0 "https://app.example.com" "a@b.c" "pw" true in
  res = (fst res, Some (CourseRun string nat 0 (inl "Demo") "finished" "s1" "t1"
                          (Some "https://share.example.com") (Some "v.mp4") "a@b.c" "pw" "l1" [1; 2] 2)) /\
  (2 = List.length [1; 2] /\ (true = false -> [1; 2] = []) /\ 0 = 0 /\
   Some "https://share.example.com" = share /\
   exists signup_sid l0 u pre, session_at 0 = Some (signup_sid, l0) /\ email_result = Some (Some u) /\
     u <> "" /\ session_at 1 = Some ("s1", "l1") /\ task_at 1 = Some "t1" /\
     fst res = (pre ++ [StopSession signup_sid; CreateSession u;
                  CreateTask "s1" (full_task "a@b.c" "pw"
                                    (_build_course_task string (fun s => s) (fun s => s) c "a@b.c" "pw"
                                       "https://app.example.com")) u;
                  RecordLive "l1" "s1" "t1" 0 120; WaitTask "t1" true; ShareLink "s1"])%list).
Proof.
  intros session_at task_at wait_at email_result video_result share c res.
  assert (H : res = (fst res, Some (CourseRun string nat 0 (inl "Demo") "finished" "s1" "t1"
                          (Some "https://share.example.com") (Some "v.mp4") "a@b.c" "pw" "l1" [1; 2] 2)))
    by (vm_compute; reflexivity).
  split; [exact H|].
  exact (execute_course_run_shape string (fun s => s) (fun s => s) nat session_at task_at wait_at
           email_result video_result share c 0 "https://app.example.com" "a@b.c" "pw" true (fst res) 0
           (inl "Demo") "finished" "s1" "t1" (Some "https://share.example.com") (Some "v.mp4") "a@b.c" "pw"
           "l1" [1; 2] 2 H).
Defined.

Lemma wait_for_task_timeline_witness :
  let status := fun n : nat => if Nat.ltb n 3 then Some "running" else Some "finished" in
  let delay := fun _ : nat => 0%Z in
  let resp := fun k : nat => @HOk nat k in
  let steps := fun n : nat => seq 0 n in
  (forall k, (0 <= delay k)%Z) /\
  (forall j dj dj', resp j = HOk dj -> resp (S j) = HOk dj' -> exists r, steps dj' = (steps dj ++ r)%list) /\
  _wait_for_task nat status delay resp nat steps true 5 0 0 0 0 []
    = Returned (3, [(0, 4000%Z); (1, 6000%Z); (2, 8000%Z)]) 8000%Z /\
  (map fst [(0, 4000%Z); (1, 6000%Z); (2, 8000%Z)] = steps 3 /\
   StronglySorted Z.le (map snd [(0, 4000%Z); (1, 6000%Z); (2, 8000%Z)]) /\
   Forall (fun o => 2000 <= o <= 8000 - 0)%Z (map snd [(0, 4000%Z); (1, 6000%Z); (2, 8000%Z)])).
Proof.
  intros status delay resp steps.
  assert (Hd : forall k, (0 <= delay k)%Z) by (intros; unfold delay; lia).
  assert (Hg : forall j dj dj', resp j = HOk dj -> resp (S j) = HOk dj' ->
                 exists r, steps dj' = (steps dj ++ r)%list).
  { intros j dj dj' E E'. injection E as <-. injection E' as <-. exists [j]. apply seq_S. }
  assert (Hr : _wait_for_task nat status delay resp nat steps true 5 0 0 0 0 []
                 = Returned (3, [(0, 4000%Z); (1, 6000%Z); (2, 8000%Z)]) 8000%Z)
    by (vm_compute; reflexivity).
  split; [exact Hd|]. split; [exact Hg|]. split; [exact Hr|].
  exact (wait_for_task_timeline nat status delay resp nat steps Hd Hg 5 0 3
           [(0, 4000%Z); (1, 6000%Z); (2, 8000%Z)] 8000%Z Hr).
Defined.

Lemma course_monitor_url_accepted_witness :
  let list_at := fun k : nat => if Nat.ltb k 1 then @LOk nat [] else LOk [7] in
  let llm_at := fun k : nat => if Nat.ltb k 2 then Some "NONE" else Some "https://verify.example.com" in
  Inbox._monitor_verification_email nat (fun _ => 0%Z) list_at llm_at 90 10 0 0 0
    = Returned (Some "https://verify.example.com") 6000%Z /\
  ("https://verify.example.com" <> "" /\ "https://verify.example.com" <> "NONE" /\
   (exists r, "https://verify.example.com" = "http" ++ r) /\
   exists j m ms, list_at j = LOk (m :: ms) /\ llm_at j = Some "https://verify.example.com").
Proof.
  intros list_at llm_at.
  assert (H : Inbox._monitor_verification_email nat (fun _ => 0%Z) list_at llm_at 90 10 0 0 0
                = Returned (Some "https://verify.example.com") 6000%Z) by (vm_compute; reflexivity).
  split; [exact H|].
  exact (course_monitor_url_accepted nat (fun _ => 0%Z) list_at llm_at 90 10 0
           "https://verify.example.com" 6000%Z H).
Defined.

Lemma get_verification_data_first_message_witness :
  let list_at := fun k : nat => if Nat.ltb k 2 then @LOk nat [] else LOk [5; 6] in
  let handle := fun (_ : nat) (m : nat) => mk_verification "code" (str_of_nat m) in
  get_verification_data nat (fun _ => 0%Z) list_at handle true 90 10 0
    = Returned (Some (mk_verification "code" "5")) 6000%Z /\
  (true = true /\
   exists j m ms, list_at j = LOk (m :: ms) /\ mk_verification "code" "5" = handle j m /\
     forall i, i < j -> list_at i = LOk []).
Proof.
  intros list_at handle.
  assert (H : get_verification_data nat (fun _ => 0%Z) list_at handle true 90 10 0
                = Returned (Some (mk_verification "code" "5")) 6000%Z) by (vm_compute; reflexivity).
  split; [exact H|].
  exact (get_verification_data_first_message nat (fun _ => 0%Z) list_at handle true 90 10 0
           (mk_verification "code" "5") 6000%Z H).
Defined.

Lemma compose_missing_video_input_witness :
  let segs := [mk_segment nat (Some 3) None (Some "a.mp4"); mk_segment nat (Some 20) None None] in
  In (mk_segment nat (Some 20) None None) segs /\ video_file nat (mk_segment nat (Some 20) None None) = None /\
  (let run := _compose_with_ffmpeg nat Nat.add str_of_nat (fun n => Z.of_nat (n * 1000)) 0 5 12 (fun s => s)
                (fun _ => true) (fun _ => 9) false true "out" "intro.mp4" "rec.webm" segs "final.mp4" in
   exists fc files, In (BuildFilter fc) run /\
     In (Ffmpeg (["ffmpeg"; "-y"; "-i"; "intro.mp4"; "-i"; temp_browser "out"]
                   ++ flat_map (fun f => ["-i"; f]) files
                   ++ ["-filter_complex"; fc; "-map"; "[outv]"; "-map"; "[outa]"; "-c:v"; "libx264";
                       "-c:a"; "aac"; "-preset"; "fast"; "final.mp4"])%list) run /\
     List.length files < List.length segs /\
     substr_of ("[" ++ str_of_nat (List.length segs + 1) ++ ":v]scale=320:180") fc).
Proof.
  intros segs.
  assert (Hin : In (mk_segment nat (Some 20) None None) segs) by (right; left; reflexivity).
  split; [exact Hin|]. split; [reflexivity|].
  exact (compose_missing_video_input nat Nat.add str_of_nat (fun n => Z.of_nat (n * 1000)) 0 5 12
           (fun s => s) (fun _ => true) (fun _ => 9) false true "out" "intro.mp4" "rec.webm" "final.mp4"
           segs (mk_segment nat (Some 20) None None) Hin eq_refl).
Defined.

Lemma compose_uses_probed_duration_witness :
  let segs := [mk_segment nat (Some 3) (Some 4) (Some "a.mp4"); mk_segment nat (Some 20) None None] in
  nth_error segs 0 = Some (mk_segment nat (Some 3) (Some 4) (Some "a.mp4")) /\
  video_file nat (mk_segment nat (Some 3) (Some 4) (Some "a.mp4")) = Some "a.mp4" /\ "a.mp4" <> "" /\
  (let run := _compose_with_ffmpeg nat Nat.add str_of_nat (fun n => Z.of_nat (n * 1000)) 0 5 12 (fun s => s)
                (fun _ => true) (fun _ => 9) false true "out" "intro.mp4" "rec.webm" segs "final.mp4" in
   In (ProbeDuration "a.mp4") run /\
   exists fc, In (BuildFilter fc) run /\
     substr_of (segment_filters nat Nat.add str_of_nat (fun n => Z.of_nat (n * 1000)) 0 5 12 0
                  (mk_segment nat (start_time nat (mk_segment nat (Some 3) (Some 4) (Some "a.mp4")))
                     (Some 9) (Some "a.mp4"))) fc).
Proof.
  intros segs. split; [reflexivity|]. split; [reflexivity|]. split; [discriminate|].
  exact (compose_uses_probed_duration nat Nat.add str_of_nat (fun n => Z.of_nat (n * 1000)) 0 5 12
           (fun s => s) (fun _ => true) (fun _ => 9) false true "out" "intro.mp4" "rec.webm" "final.mp4"
           segs 0 (mk_segment nat (Some 3) (Some 4) (Some "a.mp4")) "a.mp4" eq_refl eq_refl
           ltac:(discriminate)).
Defined.

Lemma compose_overlay_fallback_reconverts_witness :
  let segs := [mk_segment nat (Some 3) None (Some "a.mp4")] in
  segs <> [] /\
  (let run := _compose_with_ffmpeg nat Nat.add str_of_nat (fun n => Z.of_nat (n * 1000)) 0 5 12 (fun s => s)
                (fun _ => false) (fun _ => 9) true false "out" "intro.mp4" "rec.webm" segs "final.mp4" in
   let conv := Ffmpeg (convert_cmd "rec.webm" (temp_browser "out")) in
   hd_error run = Some conv /\
   (false = true -> ~ In conv (tl run) /\ forall l, ~ In (WriteConcatList l) run) /\
   (false = false -> exists mid, run = (conv :: mid ++
      [conv; WriteConcatList [("file '" ++ "intro.mp4" ++ "'")%string;
                              ("file '" ++ temp_browser "out" ++ "'")%string];
       Ffmpeg ["ffmpeg"; "-y"; "-f"; "concat"; "-safe"; "0"; "-i";
               ("out" ++ "/concat_list.txt")%string; "-c"; "copy"; "final.mp4"]])%list)).
Proof.
  intros segs. split; [discriminate|].
  exact (compose_overlay_fallback_reconverts nat Nat.add str_of_nat (fun n => Z.of_nat (n * 1000)) 0 5 12
           (fun s => s) (fun _ => false) (fun _ => 9) true false "out" "intro.mp4" "rec.webm" "final.mp4"
           segs ltac:(discriminate)).
Defined.

End ExtraWitnesses.
